(** * Samsung msm8660-common HAL: lights actuator and sensor multiplexer

    A shallow embedding of [liblights/lights.c] and [libsensors/sensors.cpp].
    C [int]s are integers of [Z]; the process globals, the file system the
    code sees and the system calls it issues are explicit state that every
    function threads through, together with a chronological trace of the
    calls made to the outside (system calls, driver methods, log lines). *)

From stdpp Require Import gmap strings list.
From Stdlib Require Import ZArith Lia DecimalString.

#[local] Open Scope Z_scope.

(** ** C integers *)

(** The value an [int] holds after an arithmetic result [z]: two's
    complement wrap-around on 32 bits. *)
Definition int32 (z : Z) : Z := (z + 2 ^ 31) mod 2 ^ 32 - 2 ^ 31.

Definition INT_MAX : Z := 2 ^ 31 - 1.

(** C truth value of an [int]. *)
Definition truthy (z : Z) : bool := negb (z =? 0).

(** ** liblights/lights.c *)

Module Lights.

(** [struct light_state_t] of hardware/lights.h; [color] is an
    [unsigned int] holding 0xAARRGGBB. *)
Record light_state_t := {
  color : Z;
  flashMode : Z;
  flashOnMS : Z;
  flashOffMS : Z;
  brightnessMode : Z
}.

Definition LCD_FILE : string := "/sys/class/leds/lcd-backlight/brightness".
Definition BUTTONS_FILE : string := "/sys/class/misc/melfas_touchkey/brightness".
Definition BUTTONS_POWER : string := "/sys/class/misc/melfas_touchkey/enable_disable".
Definition NOTIFICATION_FILE : string :=
  "/sys/class/misc/backlightnotification/notification_led".
Definition NOTIFICATION_BLINK_FILE : string :=
  "/sys/class/misc/backlightnotification/blink_control".
Definition NOTIFICATION_BLINK_RATE_FILE : string :=
  "/sys/class/misc/backlightnotification/blink_interval".

(** The path literal of [load_settings]. *)
Definition TOUCHLIGHT_SETTING : string := "/data/.disable_touchlight".

Definition ENOENT : Z := 2.
Definition EBADF : Z := 9.

(** A node of the file system as the process sees it: what it holds, the
    [errno] with which opening it fails (if it does), and the [errno] with
    which writing to it fails (if it does).  A path without a node does not
    exist. *)
Record file := {
  contents : string;
  open_errno : option Z;
  write_errno : option Z
}.

Inductive arg :=
| AInt (z : Z)
| AStr (s : string).

(** What the process does to the outside, in program order. *)
Inductive event :=
| SysOpen (path : string) (fd : Z)
| SysWrite (path : string) (data : string) (amt : Z)
| SysClose (path : string)
| StdioOpen (path : string) (ok : bool)
| StdioGetc (path : string) (c : Z)
| StdioClose (path : string)
| ALOGD (fn : string) (args : list arg)
| ALOGE (msg : string) (args : list arg)
| MutexLock
| MutexUnlock.

(** Process state: the file-scope globals, the two function-local statics
    named [already_warned] (one in [write_int], one in [write_str]),
    [errno], the file system and the trace. *)
Record state := {
  g_notification_blink_support : Z;
  g_notification_blink_rate_support : Z;
  g_enable_touchlight : Z;
  write_int_already_warned : Z;
  write_str_already_warned : Z;
  errno : Z;
  fs : gmap string file;
  trace : list event
}.

Definition set_blink_support (v : Z) (s : state) : state :=
  {| g_notification_blink_support := v;
     g_notification_blink_rate_support := g_notification_blink_rate_support s;
     g_enable_touchlight := g_enable_touchlight s;
     write_int_already_warned := write_int_already_warned s;
     write_str_already_warned := write_str_already_warned s;
     errno := errno s; fs := fs s; trace := trace s |}.

Definition set_blink_rate_support (v : Z) (s : state) : state :=
  {| g_notification_blink_support := g_notification_blink_support s;
     g_notification_blink_rate_support := v;
     g_enable_touchlight := g_enable_touchlight s;
     write_int_already_warned := write_int_already_warned s;
     write_str_already_warned := write_str_already_warned s;
     errno := errno s; fs := fs s; trace := trace s |}.

Definition set_enable_touchlight (v : Z) (s : state) : state :=
  {| g_notification_blink_support := g_notification_blink_support s;
     g_notification_blink_rate_support := g_notification_blink_rate_support s;
     g_enable_touchlight := v;
     write_int_already_warned := write_int_already_warned s;
     write_str_already_warned := write_str_already_warned s;
     errno := errno s; fs := fs s; trace := trace s |}.

Definition set_write_int_warned (v : Z) (s : state) : state :=
  {| g_notification_blink_support := g_notification_blink_support s;
     g_notification_blink_rate_support := g_notification_blink_rate_support s;
     g_enable_touchlight := g_enable_touchlight s;
     write_int_already_warned := v;
     write_str_already_warned := write_str_already_warned s;
     errno := errno s; fs := fs s; trace := trace s |}.

Definition set_write_str_warned (v : Z) (s : state) : state :=
  {| g_notification_blink_support := g_notification_blink_support s;
     g_notification_blink_rate_support := g_notification_blink_rate_support s;
     g_enable_touchlight := g_enable_touchlight s;
     write_int_already_warned := write_int_already_warned s;
     write_str_already_warned := v;
     errno := errno s; fs := fs s; trace := trace s |}.

Definition set_errno (v : Z) (s : state) : state :=
  {| g_notification_blink_support := g_notification_blink_support s;
     g_notification_blink_rate_support := g_notification_blink_rate_support s;
     g_enable_touchlight := g_enable_touchlight s;
     write_int_already_warned := write_int_already_warned s;
     write_str_already_warned := write_str_already_warned s;
     errno := v; fs := fs s; trace := trace s |}.

Definition set_fs (v : gmap string file) (s : state) : state :=
  {| g_notification_blink_support := g_notification_blink_support s;
     g_notification_blink_rate_support := g_notification_blink_rate_support s;
     g_enable_touchlight := g_enable_touchlight s;
     write_int_already_warned := write_int_already_warned s;
     write_str_already_warned := write_str_already_warned s;
     errno := errno s; fs := v; trace := trace s |}.

Definition emit (e : event) (s : state) : state :=
  {| g_notification_blink_support := g_notification_blink_support s;
     g_notification_blink_rate_support := g_notification_blink_rate_support s;
     g_enable_touchlight := g_enable_touchlight s;
     write_int_already_warned := write_int_already_warned s;
     write_str_already_warned := write_str_already_warned s;
     errno := errno s; fs := fs s; trace := trace s ++ [e] |}.

(** The initializers of the globals, over a given file system. *)
Definition boot (files : gmap string file) : state :=
  {| g_notification_blink_support := 0;
     g_notification_blink_rate_support := 0;
     g_enable_touchlight := -1;
     write_int_already_warned := 0;
     write_str_already_warned := 0;
     errno := 0; fs := files; trace := [] |}.

(** *** System and library calls *)

(** The [errno] with which [open(path, O_RDWR)] fails, [None] when it
    succeeds. *)
Definition open_error (files : gmap string file) (path : string) : option Z :=
  match files !! path with
  | Some f => open_errno f
  | None => Some ENOENT
  end.

(** [open(path, O_RDWR)].  Every open of lights.c is closed before the next
    one, so a successful open always yields the same lowest free
    descriptor, 3. *)
Definition sys_open (path : string) (s : state) : Z * state :=
  match open_error (fs s) path with
  | None => (3, emit (SysOpen path 3) s)
  | Some e => (-1, emit (SysOpen path (-1)) (set_errno e s))
  end.

(** [write(fd, data, strlen data)] on the descriptor opened for [path]. *)
Definition sys_write (path : string) (data : string) (s : state) : Z * state :=
  match fs s !! path with
  | Some f =>
      match write_errno f with
      | None =>
          let amt := Z.of_nat (String.length data) in
          let f' := {| contents := data; open_errno := open_errno f;
                       write_errno := write_errno f |} in
          (amt, emit (SysWrite path data amt) (set_fs (<[path := f']> (fs s)) s))
      | Some e => (-1, emit (SysWrite path data (-1)) (set_errno e s))
      end
  | None => (-1, emit (SysWrite path data (-1)) (set_errno EBADF s))
  end.

Definition sys_close (path : string) (s : state) : state :=
  emit (SysClose path) s.

(** [access(path, W_OK) == 0]: the node exists and can be opened for
    writing. *)
Definition access_w_ok (path : string) (s : state) : bool :=
  match open_error (fs s) path with
  | None => true
  | Some _ => false
  end.

(** [fopen(path, "r")]: the contents of the stream when it opens. *)
Definition fopen_r (path : string) (s : state) : option string * state :=
  match fs s !! path with
  | Some f =>
      match open_errno f with
      | None => (Some (contents f), emit (StdioOpen path true) s)
      | Some e => (None, emit (StdioOpen path false) (set_errno e s))
      end
  | None => (None, emit (StdioOpen path false) (set_errno ENOENT s))
  end.

Definition EOF : Z := -1.

(** [fgetc] at the start of a stream: the first byte as an [unsigned char],
    or [EOF]. *)
Definition fgetc (stream : string) : Z :=
  match stream with
  | EmptyString => EOF
  | String c _ => Z.of_nat (Ascii.nat_of_ascii c)
  end.

Definition newline : string := String (Ascii.ascii_of_nat 10) EmptyString.

(** The format string of the warning both [write_int] and [write_str] log. *)
Definition open_warning : string := "write_int failed to open %s" +:+ newline.

(** [sprintf(buffer, "%d", value)]. *)
Definition decimal (value : Z) : string := NilZero.string_of_int (Z.to_int value).

(** [snprintf(buffer, size, ...)] keeps at most [size - 1] characters. *)
Definition truncate (size : nat) (s : string) : string :=
  String.substring 0 (size - 1) s.

(** *** The functions of lights.c *)

Definition init_globals (s : state) : state :=
  let s := set_blink_support
             (if access_w_ok NOTIFICATION_BLINK_FILE s then 1 else 0) s in
  set_blink_rate_support
    (if access_w_ok NOTIFICATION_BLINK_RATE_FILE s then 1 else 0) s.

Definition write_int (path : string) (value : Z) (s : state) : Z * state :=
  let s := emit (ALOGD "write_int" [AStr path; AInt value]) s in
  let '(fd, s) := sys_open path s in
  if 0 <=? fd then
    let buffer := decimal value +:+ newline in
    let '(amt, s) := sys_write path buffer s in
    let s := sys_close path s in
    (if amt =? -1 then - errno s else 0, s)
  else
    let s :=
      if write_int_already_warned s =? 0 then
        set_write_int_warned 1
          (emit (ALOGE open_warning [AStr path]) s)
      else s in
    (- errno s, s).

Definition load_settings (s : state) : state :=
  let '(fp, s) := fopen_r TOUCHLIGHT_SETTING s in
  match fp with
  | None => set_enable_touchlight 1 s
  | Some stream =>
      let c := fgetc stream in
      let s := emit (StdioGetc TOUCHLIGHT_SETTING c) s in
      let s := set_enable_touchlight (if c =? 49 then 0 else 1) s in
      emit (StdioClose TOUCHLIGHT_SETTING) s
  end.

Definition write_str (path : string) (str : string) (s : state) : Z * state :=
  let s := emit (ALOGD "write_str" [AStr path; AStr str]) s in
  let '(fd, s) := sys_open path s in
  if 0 <=? fd then
    let '(amt, s) := sys_write path str s in
    let s := sys_close path s in
    (if amt =? -1 then - errno s else 0, s)
  else
    let s :=
      if write_str_already_warned s =? 0 then
        set_write_str_warned 1
          (emit (ALOGE open_warning [AStr path]) s)
      else s in
    (- errno s, s).

Definition rgb_to_brightness (st : light_state_t) : Z :=
  let color := Z.land (color st) 0x00ffffff in
  Z.shiftr
    (77 * Z.land (Z.shiftr color 16) 0x00ff
     + 150 * Z.land (Z.shiftr color 8) 0x00ff
     + 29 * Z.land color 0x00ff) 8.

(** The derivation as the specification words it: the fixed weights 77,
    150 and 29 over the red, green and blue bytes of the colour, shifted
    right by 8. *)
Definition red (c : Z) : Z := Z.land (Z.shiftr c 16) 0xff.
Definition green (c : Z) : Z := Z.land (Z.shiftr c 8) 0xff.
Definition blue (c : Z) : Z := Z.land c 0xff.
Definition luma (c : Z) : Z :=
  Z.shiftr (77 * red c + 150 * green c + 29 * blue c) 8.

Definition set_light_battery (st : light_state_t) (s : state) : Z * state :=
  (0, s).

Definition set_light_notifications (st : light_state_t) (s : state) : Z * state :=
  let bln_led_control := if truthy (Z.land (color st) 0x00ffffff) then 1 else 0 in
  let s := emit (ALOGD "set_light_notification"
                   [AInt (color st); AInt bln_led_control;
                    AInt (flashOnMS st); AInt (flashOffMS st)]) s in
  let s := emit MutexLock s in
  let '(res, s) := write_int NOTIFICATION_FILE bln_led_control s in
  let '(res, s) :=
    if truthy (g_notification_blink_support s) && truthy bln_led_control
       && truthy (flashMode st) then
      let '(res, s) :=
        if truthy (g_notification_blink_rate_support s) then
          let buffer :=
            truncate 10 (decimal (flashOnMS st) +:+ " " +:+ decimal (flashOffMS st)) in
          write_str NOTIFICATION_BLINK_RATE_FILE buffer s
        else (res, s) in
      write_int NOTIFICATION_BLINK_FILE bln_led_control s
    else (res, s) in
  let s := emit MutexUnlock s in
  (res, s).

Definition set_light_backlight (st : light_state_t) (s : state) : Z * state :=
  let s := load_settings s in
  let brightness := rgb_to_brightness st in
  let s := emit (ALOGE "DAF set_light_backlight g_enable_touchlight = %d brightness = 0x%08x"
                   [AInt (g_enable_touchlight s); AInt brightness]) s in
  let s := emit MutexLock s in
  let '(err, s) := write_int LCD_FILE brightness s in
  let s := emit MutexUnlock s in
  (err, s).

Definition set_light_keyboard (st : light_state_t) (s : state) : Z * state :=
  (0, s).

Definition set_light_buttons (st : light_state_t) (s : state) : Z * state :=
  let touch_led_control := if truthy (Z.land (color st) 0x00ffffff) then 1 else 2 in
  let res := 0 in
  let s := emit (ALOGD "set_light_buttons" [AInt (color st); AInt touch_led_control]) s in
  let s := emit MutexLock s in
  let '(res, s) :=
    if (g_enable_touchlight s =? -1) || (0 <? g_enable_touchlight s) then
      write_int BUTTONS_FILE touch_led_control s
    else (res, s) in
  let s := emit MutexUnlock s in
  (res, s).

(** The entry points a [light_device_t] can be bound to by [open_lights]. *)
Inductive call :=
| Backlight (st : light_state_t)
| Keyboard (st : light_state_t)
| Buttons (st : light_state_t)
| Battery (st : light_state_t)
| Notifications (st : light_state_t).

Definition set_light (c : call) : state -> Z * state :=
  match c with
  | Backlight st => set_light_backlight st
  | Keyboard st => set_light_keyboard st
  | Buttons st => set_light_buttons st
  | Battery st => set_light_battery st
  | Notifications st => set_light_notifications st
  end.

(** A sequence of [set_light] calls, results dropped. *)
Fixpoint exec (calls : list call) (s : state) : state :=
  match calls with
  | [] => s
  | c :: calls => exec calls (snd (set_light c s))
  end.

(** *** Reading traces *)

Definition written (e : event) : option (string * string) :=
  match e with
  | SysWrite path data _ => Some (path, data)
  | _ => None
  end.

Definition opened (e : event) : option string :=
  match e with
  | SysOpen path _ => Some path
  | _ => None
  end.

Definition failed_open (path : string) (e : event) : bool :=
  match e with
  | SysOpen p fd => String.eqb p path && (fd <? 0)
  | _ => false
  end.

Definition setting_read (e : event) : option string :=
  match e with
  | StdioOpen path _ => Some path
  | _ => None
  end.

Definition warned (e : event) : option (list arg) :=
  match e with
  | ALOGE msg args => if String.eqb msg open_warning then Some args else None
  | _ => None
  end.

(** The write calls, the opened paths, the stdio opens and the open-failure
    warnings of a trace, in order. *)
Definition writes_of (tr : list event) : list (string * string) := omap written tr.
Definition opens_of (tr : list event) : list string := omap opened tr.
Definition setting_reads_of (tr : list event) : list string := omap setting_read tr.
Definition warnings_of (tr : list event) : list (list arg) := omap warned tr.
Definition failed_opens (path : string) (tr : list event) : nat :=
  length (filter (fun e => failed_open path e = true) tr).

(** What a call added to the trace. *)
Definition since (s s' : state) : list event := drop (length (trace s)) (trace s').

(** The persisted preference: the file can be read and starts with ['1']. *)
Definition touchlight_disabled (files : gmap string file) : bool :=
  match files !! TOUCHLIGHT_SETTING with
  | Some f =>
      match open_errno f with
      | None => fgetc (contents f) =? 49
      | Some _ => false
      end
  | None => false
  end.

(** Between two states, an [already_warned] flag that is set stays set. *)
Definition both_sticky (s s' : state) : Prop :=
  (write_int_already_warned s <> 0 -> write_int_already_warned s' <> 0)
  /\ (write_str_already_warned s <> 0 -> write_str_already_warned s' <> 0).

(** *** Sample inputs *)

Definition sysfs_node : file :=
  {| contents := "0"; open_errno := None; write_errno := None |}.

(** A handset with the backlight and touch-key nodes, and the preference
    file holding [flag] when there is one. *)
Definition handset (flag : option string) : gmap string file :=
  let nodes : gmap string file :=
    <[LCD_FILE := sysfs_node]> (<[BUTTONS_FILE := sysfs_node]> ∅) in
  match flag with
  | Some content =>
      <[TOUCHLIGHT_SETTING :=
          {| contents := content; open_errno := None; write_errno := None |}]> nodes
  | None => nodes
  end.

Definition white : light_state_t :=
  {| color := 0x00ffffff; flashMode := 0; flashOnMS := 0; flashOffMS := 0;
     brightnessMode := 0 |}.

(** *** Readings of the specification that the code does not meet *)

(** Every button-light call reads the preference file, and writes the
    button node exactly when the file is absent or does not start with
    ['1']; otherwise it skips the write and returns 0. *)
Definition buttons_gated_by_file (st : light_state_t) (s : state) : Prop :=
  let r := set_light_buttons st s in
  let d := since s (snd r) in
  setting_reads_of d = [TOUCHLIGHT_SETTING]
  /\ (touchlight_disabled (fs s) = true -> opens_of d = [] /\ fst r = 0)
  /\ (touchlight_disabled (fs s) = false -> opens_of d = [BUTTONS_FILE]).

(** A failed open in [write_int] is logged exactly when it is the first
    failed open of that path. *)
Definition warns_once_per_path (path : string) (value : Z) (s : state) : Prop :=
  let r := write_int path value s in
  let d := since s (snd r) in
  (failed_opens path (trace s) = 0%nat -> warnings_of d = [[AStr path]])
  /\ (failed_opens path (trace s) <> 0%nat -> warnings_of d = []).

(** *** The rest of lights.c *)

Definition EINVAL : Z := 22.

(** limits.h of the platform. *)
Definition PATH_MAX : nat := 4096.

(** [snprintf(path, sizeof(path), "%s/%s", dir, file)]: the truncation is
    not checked. *)
Definition write_df_int (dir file : string) (value : Z) (s : state) : Z * state :=
  let path := truncate PATH_MAX (dir +:+ "/" +:+ file) in
  write_int path value s.

Definition write_df_str (dir file str : string) (s : state) : Z * state :=
  let path := truncate PATH_MAX (dir +:+ "/" +:+ file) in
  write_str path str s.





(** *** Monitors on traces *)

(** Whether [g_lock] is held after the events [tr], starting from [held];
    [None] when the lock is taken while held, released while free, or a
    control node is opened, written or closed without it. *)
Fixpoint locked_after (held : bool) (tr : list event) : option bool :=
  match tr with
  | [] => Some held
  | MutexLock :: tr => if held then None else locked_after true tr
  | MutexUnlock :: tr => if held then locked_after false tr else None
  | SysOpen _ _ :: tr | SysWrite _ _ _ :: tr | SysClose _ :: tr =>
      if held then locked_after held tr else None
  | _ :: tr => locked_after held tr
  end.

(** A node that opens and takes writes. *)
Definition healthy (files : gmap string file) (path : string) : bool :=
  match files !! path with
  | Some f =>
      match open_errno f, write_errno f with
      | None, None => true
      | _, _ => false
      end
  | None => false
  end.

(** What a node holds, if it exists. *)
Definition holds (files : gmap string file) (path : string) : option string :=
  contents <$> files !! path.

(** The nodes [set_light_notifications] opens for [st] in [s], in
    order. *)
Definition notification_nodes (st : light_state_t) (s : state) : list string :=
  NOTIFICATION_FILE ::
  (if truthy (g_notification_blink_support s)
      && truthy (Z.land (color st) 0x00ffffff) && truthy (flashMode st)
   then (if truthy (g_notification_blink_rate_support s)
         then [NOTIFICATION_BLINK_RATE_FILE] else [])
        ++ [NOTIFICATION_BLINK_FILE]
   else []).


(** How many open-failure warnings the process can still log: one for each
    [already_warned] flag that is still 0. *)
Definition warning_budget (s : state) : nat :=
  Nat.add (if write_int_already_warned s =? 0 then 1%nat else 0%nat)
          (if write_str_already_warned s =? 0 then 1%nat else 0%nat).

(** What [set_light_notifications] would write for [st] in [s], node by
    node, were every node to open. *)
Definition notification_writes (st : light_state_t) (s : state) : list (string * string) :=
  let on := if truthy (Z.land (color st) 0x00ffffff) then 1 else 0 in
  (NOTIFICATION_FILE, decimal on +:+ newline) ::
  (if truthy (g_notification_blink_support s)
      && truthy (Z.land (color st) 0x00ffffff) && truthy (flashMode st)
   then (if truthy (g_notification_blink_rate_support s)
         then [(NOTIFICATION_BLINK_RATE_FILE,
                truncate 10 (decimal (flashOnMS st) +:+ " " +:+ decimal (flashOffMS st)))]
         else [])
        ++ [(NOTIFICATION_BLINK_FILE, decimal on +:+ newline)]
   else []).


Definition is_backlight (c : call) : bool :=
  match c with
  | Backlight _ => true
  | _ => false
  end.


(** *** More sample inputs *)

(** A device with the blink and interval nodes but no LED node. *)
Definition blinker : gmap string file :=
  <[NOTIFICATION_BLINK_FILE := sysfs_node]>
    (<[NOTIFICATION_BLINK_RATE_FILE := sysfs_node]> ∅).

Definition slow_flash : light_state_t :=
  {| color := 0x00ffffff; flashMode := 1; flashOnMS := 100000; flashOffMS := 100000;
     brightnessMode := 0 |}.

Definition black : light_state_t :=
  {| color := 0xff000000; flashMode := 0; flashOnMS := 0; flashOffMS := 0;
     brightnessMode := 0 |}.


End Lights.

(** ** libsensors/sensors.cpp *)

Module Sensors.

(** errno.h and poll.h of the platform (Linux). *)
Definition EINVAL : Z := 22.
Definition POLLIN : Z := 1.

(** The sensor identifiers [ID_A] ... [ID_SM] come from sensors.h, which
    is not part of the modelled sources: they are parameters.  Being the
    labels of one [switch], they are pairwise distinct. *)
Record sensors_h := {
  ID_A : Z;
  ID_M : Z;
  ID_O : Z;
  ID_L : Z;
  ID_P : Z;
  ID_GY : Z;
  ID_SM : Z
}.

Definition declared (ids : sensors_h) : list Z :=
  [ID_A ids; ID_M ids; ID_O ids; ID_SM ids; ID_P ids; ID_L ids; ID_GY ids].

(** The anonymous enum of [sensors_poll_context_t]. *)
Definition light : Z := 0.
Definition proximity : Z := 1.
Definition akm : Z := 2.
Definition gyro : Z := 3.
Definition numSensorDrivers : nat := 4.
Definition numFds : nat := 5.
Definition wake : nat := numFds - 1.

(** ['W'] *)
Definition WAKE_MESSAGE : Z := 87.

Record pollfd := {
  fd : Z;
  events : Z;
  revents : Z
}.

Definition set_revents (v : Z) (p : pollfd) : pollfd :=
  {| fd := fd p; events := events p; revents := v |}.

Definition revents_at (i : nat) (fds : list pollfd) : Z :=
  match fds !! i with
  | Some p => revents p
  | None => 0
  end.

Definition fd_at (i : nat) (fds : list pollfd) : Z :=
  match fds !! i with
  | Some p => fd p
  | None => -1
  end.

(** The abstract class [SensorBase]: the virtual methods the multiplexer
    calls, as transitions of the outside world [W].  [readEvents count]
    yields the [int] the driver returns and the events it stored at the
    [data] pointer it was given, in order from [data[0]]. *)
Module SensorBase.

Record t (W event : Type) := {
  getFd : Z;
  enable : Z -> Z -> W -> Z * W;
  setDelay : Z -> Z -> W -> Z * W;
  batch : Z -> Z -> Z -> Z -> W -> Z * W;
  flush : Z -> W -> Z * W;
  hasPendingEvents : W -> bool;
  readEvents : Z -> W -> Z * list event * W
}.

Arguments getFd {W event}.
Arguments enable {W event}.
Arguments setDelay {W event}.
Arguments batch {W event}.
Arguments flush {W event}.
Arguments hasPendingEvents {W event}.
Arguments readEvents {W event}.

End SensorBase.

(** The system calls of sensors.cpp.  [k_poll fds nfds timeout] yields the
    return value and the [revents] the kernel stores in each entry;
    [k_read fd 1] yields the return value and the byte found in [msg]
    afterwards; [k_pipe] yields the return value and the two ends. *)
Record Kernel (W : Type) := {
  k_poll : list pollfd -> Z -> Z -> W -> Z * (nat -> Z) * W;
  k_errno : W -> Z;
  k_write : Z -> list Z -> W -> Z * W;
  k_read : Z -> Z -> W -> Z * Z * W;
  k_usleep : Z -> W -> W;
  k_pipe : W -> Z * (Z * Z) * W
}.

Arguments k_poll {W}.
Arguments k_errno {W}.
Arguments k_write {W}.
Arguments k_read {W}.
Arguments k_usleep {W}.
Arguments k_pipe {W}.

(** Calls that leave the multiplexer, in program order. *)
Inductive action :=
| Usleep (us : Z)
| DrvEnable (drv : nat) (handle enabled err : Z)
| DrvSetDelay (drv : nat) (handle ns err : Z)
| DrvBatch (drv : nat) (handle flags period latency err : Z)
| DrvFlush (drv : nat) (handle err : Z)
| DrvRead (drv : nat) (data count nb : Z)
| SysPoll (timeout ready : Z)
| SysWrite (fd : Z) (bytes : list Z) (result : Z)
| SysRead (fd : Z) (result : Z)
| ALOGE (msg : string).

(** The fields of [sensors_poll_context_t], the outside world, the memory
    the caller's [sensors_event_t*] points into (addressed in units of one
    event) and the trace. *)
Record machine (W event : Type) := {
  mPollFds : list pollfd;
  mWritePipeFd : Z;
  world : W;
  mem : gmap Z event;
  trace : list action
}.

Arguments mPollFds {W event}.
Arguments mWritePipeFd {W event}.
Arguments world {W event}.
Arguments mem {W event}.
Arguments trace {W event}.

(** The locals of [pollEvents]. *)
Record locals := {
  count : Z;
  nbEvents : Z;
  data : Z;
  n : Z
}.

Section Context_t.

Context {W event : Type}.
Variable ids : sensors_h.
Variable mSensors : nat -> SensorBase.t W event.
Variable os : Kernel W.

Definition set_fds (v : list pollfd) (m : machine W event) : machine W event :=
  {| mPollFds := v; mWritePipeFd := mWritePipeFd m; world := world m;
     mem := mem m; trace := trace m |}.

Definition set_world (v : W) (m : machine W event) : machine W event :=
  {| mPollFds := mPollFds m; mWritePipeFd := mWritePipeFd m; world := v;
     mem := mem m; trace := trace m |}.

Definition set_mem (v : gmap Z event) (m : machine W event) : machine W event :=
  {| mPollFds := mPollFds m; mWritePipeFd := mWritePipeFd m; world := world m;
     mem := v; trace := trace m |}.

Definition emit (a : action) (m : machine W event) : machine W event :=
  {| mPollFds := mPollFds m; mWritePipeFd := mWritePipeFd m; world := world m;
     mem := mem m; trace := trace m ++ [a] |}.

(** [evs] stored at [addr], [addr + 1], ... *)
Fixpoint store (addr : Z) (evs : list event) (cells : gmap Z event) : gmap Z event :=
  match evs with
  | [] => cells
  | e :: evs => store (addr + 1) evs (<[addr := e]> cells)
  end.

Definition handleToDriver (handle : Z) : Z :=
  if (handle =? ID_A ids) || (handle =? ID_M ids) || (handle =? ID_O ids)
     || (handle =? ID_SM ids) then akm
  else if handle =? ID_P ids then proximity
  else if handle =? ID_L ids then light
  else if handle =? ID_GY ids then gyro
  else - EINVAL.

(** The constructor, on a caller memory [cells].  The two [fcntl] calls
    make the pipe ends non-blocking, which is a property of the
    descriptors the kernel hands out and leaves no state here. *)
Definition sensors_poll_context_t (cells : gmap Z event) (w : W) : machine W event :=
  let entry (i : Z) :=
    {| fd := SensorBase.getFd (mSensors (Z.to_nat i)); events := POLLIN; revents := 0 |} in
  let '(result, (rd, wr), w) := k_pipe os w in
  {| mPollFds := [entry light; entry proximity; entry akm; entry gyro;
                  {| fd := rd; events := POLLIN; revents := 0 |}];
     mWritePipeFd := wr;
     world := w;
     mem := cells;
     trace := if result <? 0 then [ALOGE "error creating wake pipe (%s)"] else [] |}.

Definition activate (handle enabled : Z) (m : machine W event) : Z * machine W event :=
  let index := handleToDriver handle in
  if index <? 0 then (index, m) else
  let m :=
    if (index =? gyro) && (enabled =? 0) then
      emit (Usleep (200 * 1000)) (set_world (k_usleep os (200 * 1000) (world m)) m)
    else m in
  let '(err, w) := SensorBase.enable (mSensors (Z.to_nat index)) handle enabled (world m) in
  let m := emit (DrvEnable (Z.to_nat index) handle enabled err) (set_world w m) in
  let m :=
    if truthy enabled && negb (truthy err) then
      let '(result, w) := k_write os (mWritePipeFd m) [WAKE_MESSAGE] (world m) in
      let m := emit (SysWrite (mWritePipeFd m) [WAKE_MESSAGE] result) (set_world w m) in
      if result <? 0 then emit (ALOGE "error sending wake message (%s)") m else m
    else m in
  (err, m).

Definition setDelay (handle ns : Z) (m : machine W event) : Z * machine W event :=
  let index := handleToDriver handle in
  if index <? 0 then (index, m) else
  let '(err, w) := SensorBase.setDelay (mSensors (Z.to_nat index)) handle ns (world m) in
  (err, emit (DrvSetDelay (Z.to_nat index) handle ns err) (set_world w m)).

(** One pass of the body of the [for] loop, for driver [i]. *)
Definition drain_one (i : nat) (l : locals) (m : machine W event) : locals * machine W event :=
  if truthy (Z.land (revents_at i (mPollFds m)) POLLIN)
     || SensorBase.hasPendingEvents (mSensors i) (world m) then
    let '(nb, evs, w) := SensorBase.readEvents (mSensors i) (count l) (world m) in
    let m := emit (DrvRead i (data l) (count l) nb)
               (set_mem (store (data l) evs (mem m)) (set_world w m)) in
    let m :=
      if nb <? count l then set_fds (alter (set_revents 0) i (mPollFds m)) m
      else m in
    ({| count := int32 (count l - nb);
        nbEvents := int32 (nbEvents l + nb);
        data := data l + nb;
        n := n l |}, m)
  else (l, m).

(** [for (int i=0 ; count && i<numSensorDrivers ; i++)] over the drivers
    still to visit. *)
Fixpoint drain (drivers : list nat) (l : locals) (m : machine W event) : locals * machine W event :=
  match drivers with
  | [] => (l, m)
  | i :: drivers =>
      if truthy (count l) then
        let '(l, m) := drain_one i l m in
        drain drivers l m
      else (l, m)
  end.

(** The [if (count)] block after the [for] loop: [inl] is the value of an
    early [return], [inr] the locals to go on with. *)
Definition wait (l : locals) (m : machine W event) : (Z + locals) * machine W event :=
  if truthy (count l) then
    let timeout := if truthy (nbEvents l) then 0 else -1 in
    let '(ready, rv, w) :=
      k_poll os (mPollFds m) (Z.of_nat numFds) timeout (world m) in
    let m := emit (SysPoll timeout ready)
               (set_fds (imap (fun i p => set_revents (rv i) p) (mPollFds m))
                  (set_world w m)) in
    if ready <? 0 then
      let m := emit (ALOGE "poll() failed (%s)") m in
      (inl (- k_errno os (world m)), m)
    else
      let m :=
        if truthy (Z.land (revents_at wake (mPollFds m)) POLLIN) then
          let '(result, msg, w) := k_read os (fd_at wake (mPollFds m)) 1 (world m) in
          let m := emit (SysRead (fd_at wake (mPollFds m)) result) (set_world w m) in
          let m :=
            if result <? 0 then emit (ALOGE "error reading from wake pipe (%s)") m
            else m in
          let m :=
            if negb (msg =? WAKE_MESSAGE) then
              emit (ALOGE "unknown message on wake queue (0x%02x)") m
            else m in
          set_fds (alter (set_revents 0) wake (mPollFds m)) m
        else m in
      (inr {| count := count l; nbEvents := nbEvents l; data := data l; n := ready |}, m)
  else (inr l, m).

(** The [do ... while (n && count)] loop.  [fuel] bounds the number of
    passes: the result is the value returned, or [None] when the call has
    not returned within the bound, and the machine as it is then. *)
Fixpoint pollEvents_loop (fuel : nat) (l : locals) (m : machine W event)
  : option Z * machine W event :=
  match fuel with
  | O => (None, m)
  | S fuel =>
      let '(l, m) := drain (seq 0 numSensorDrivers) l m in
      match wait l m with
      | (inl r, m) => (Some r, m)
      | (inr l, m) =>
          if truthy (n l) && truthy (count l) then pollEvents_loop fuel l m
          else (Some (nbEvents l), m)
      end
  end.

Definition pollEvents (fuel : nat) (data count : Z) (m : machine W event)
  : option Z * machine W event :=
  pollEvents_loop fuel {| count := count; nbEvents := 0; data := data; n := 0 |} m.

Definition batch (handle flags sampling_period_ns max_report_latency_ns : Z)
  (m : machine W event) : Z * machine W event :=
  let index := handleToDriver handle in
  if index <? 0 then (index, m) else
  let '(err, w) :=
    SensorBase.batch (mSensors (Z.to_nat index)) handle flags sampling_period_ns
      max_report_latency_ns (world m) in
  (err, emit (DrvBatch (Z.to_nat index) handle flags sampling_period_ns
                max_report_latency_ns err) (set_world w m)).

Definition flush (handle : Z) (m : machine W event) : Z * machine W event :=
  let index := handleToDriver handle in
  if index <? 0 then (index, m) else
  let '(err, w) := SensorBase.flush (mSensors (Z.to_nat index)) handle (world m) in
  (err, emit (DrvFlush (Z.to_nat index) handle err) (set_world w m)).

End Context_t.

(** *** Reading traces *)

(** What a call added to the trace. *)
Definition since {W event : Type} (m m' : machine W event) : list action :=
  drop (length (trace m)) (trace m').

Definition read_count (a : action) : Z :=
  match a with
  | DrvRead _ _ _ nb => nb
  | _ => 0
  end.

(** The number of events the driver reads of a trace returned, in all. *)
Definition stored (d : list action) : Z :=
  foldr (fun a acc => read_count a + acc) 0 d.

(** The value [nbEvents] holds after the actions [d] of one [pollEvents]
    call: the [int] sum of what the driver reads returned. *)
Definition nbEvents_after (d : list action) : Z :=
  fold_left (fun acc a =>
               match a with
               | DrvRead _ _ _ nb => int32 (acc + nb)
               | _ => acc
               end) d 0.

Definition is_wait (a : action) : bool :=
  match a with
  | SysPoll _ _ => true
  | _ => false
  end.

Definition pipe_write (a : action) : option (Z * list Z) :=
  match a with
  | SysWrite fd bytes _ => Some (fd, bytes)
  | _ => None
  end.

Definition slept (a : action) : option Z :=
  match a with
  | Usleep us => Some us
  | _ => None
  end.

Definition driver_call (a : action) : bool :=
  match a with
  | DrvEnable _ _ _ _ | DrvSetDelay _ _ _ _ | DrvBatch _ _ _ _ _ _
  | DrvFlush _ _ _ | DrvRead _ _ _ _ => true
  | _ => false
  end.

(** Each wait of the actions [d] of one [pollEvents] call has the timeout
    that [nbEvents] selects at that point: 0 once it is nonzero, -1 (no
    timeout) while it is 0. *)
Definition waits_follow (d : list action) : Prop :=
  forall pre timeout ready post,
    d = pre ++ SysPoll timeout ready :: post ->
    timeout = if truthy (nbEvents_after pre) then 0 else -1.

(** Every driver read of [d] returned a number of events. *)
Definition reads_nonneg (d : list action) : Prop :=
  Forall (fun a => 0 <= read_count a) d.

(** Neither a wait nor a driver call. *)
Definition quiet (a : action) : Prop := is_wait a = false /\ driver_call a = false.


(** *** What the multiplexer relies on *)

(** A driver asked for at most [n > 0] events returns a number of events
    between 0 and [n], and has stored that many. *)
Definition read_contract {W event : Type} (mSensors : nat -> SensorBase.t W event) : Prop :=
  forall i n w,
    0 < n ->
    0 <= fst (fst (SensorBase.readEvents (mSensors i) n w)) <= n
    /\ Z.of_nat (length (snd (fst (SensorBase.readEvents (mSensors i) n w))))
       = fst (fst (SensorBase.readEvents (mSensors i) n w)).

(** A failed [poll] leaves a positive [errno]. *)
Definition poll_contract {W : Type} (os : Kernel W) : Prop :=
  forall fds nfds timeout w,
    fst (fst (k_poll os fds nfds timeout w)) < 0 ->
    0 < k_errno os (snd (k_poll os fds nfds timeout w)).

(** *** A scripted world *)

Module Sim.

Definition EINTR : positive := 4.
Definition EAGAIN : positive := 11.
Definition ENOMEM : positive := 12.

(** Per driver the samples its device node still holds; the bytes in the
    wake pipe; the time slept so far; the error number the next [poll]
    fails with, if it is to fail; [errno]; what the drivers' [enable]
    returns. *)
Record sim := {
  queues : list (list Z);
  pipe : list Z;
  clock : Z;
  poll_fails : option positive;
  sim_errno : Z;
  enable_result : Z
}.

Definition queue (i : nat) (w : sim) : list Z :=
  match queues w !! i with
  | Some q => q
  | None => []
  end.

Definition driver (i : nat) : SensorBase.t sim Z :=
  {| SensorBase.getFd := 10 + Z.of_nat i;
     SensorBase.enable := fun _ _ w => (enable_result w, w);
     SensorBase.setDelay := fun _ _ w => (0, w);
     SensorBase.batch := fun _ _ _ _ w => (0, w);
     SensorBase.flush := fun _ w => (0, w);
     SensorBase.hasPendingEvents := fun _ => false;
     SensorBase.readEvents := fun count w =>
       let evs := take (Z.to_nat count) (queue i w) in
       (Z.of_nat (length evs), evs,
        {| queues := <[i := drop (Z.to_nat count) (queue i w)]> (queues w);
           pipe := pipe w; clock := clock w; poll_fails := poll_fails w;
           sim_errno := sim_errno w; enable_result := enable_result w |}) |}.

Definition readable (i : nat) (w : sim) : bool :=
  if decide (i = wake) then negb (bool_decide (pipe w = []))
  else negb (bool_decide (queue i w = [])).

Definition with_errno (e : positive) (w : sim) : sim :=
  {| queues := queues w; pipe := pipe w; clock := clock w; poll_fails := None;
     sim_errno := Z.pos e; enable_result := enable_result w |}.

Definition with_pipe (p : list Z) (w : sim) : sim :=
  {| queues := queues w; pipe := p; clock := clock w; poll_fails := poll_fails w;
     sim_errno := sim_errno w; enable_result := enable_result w |}.

(** [poll] fails with the scripted error when there is one, and with
    [EINTR] when it would block for ever; otherwise it reports what is
    readable. *)
Definition kernel : Kernel sim :=
  {| k_poll := fun fds nfds timeout w =>
       let ready := filter (fun i => readable i w = true) (seq 0 (Z.to_nat nfds)) in
       match poll_fails w with
       | Some e => (-1, fun i => revents_at i fds, with_errno e w)
       | None =>
           if bool_decide (ready = []) && (timeout <? 0) then
             (-1, fun i => revents_at i fds, with_errno EINTR w)
           else
             (Z.of_nat (length ready),
              fun i => if readable i w then POLLIN else 0, w)
       end;
     k_errno := sim_errno;
     k_write := fun _ bytes w => (Z.of_nat (length bytes), with_pipe (pipe w ++ bytes) w);
     k_read := fun _ _ w =>
       match pipe w with
       | b :: rest => (1, b, with_pipe rest w)
       | [] => (-1, 0, with_errno EAGAIN w)
       end;
     k_usleep := fun us w =>
       {| queues := queues w; pipe := pipe w; clock := clock w + us;
          poll_fails := poll_fails w; sim_errno := sim_errno w;
          enable_result := enable_result w |};
     k_pipe := fun w => (0, (20, 21), w) |}.

(** sensors.h as the handles of [sSensorList] have it. *)
Definition ids : sensors_h :=
  {| ID_A := 0; ID_M := 1; ID_O := 2; ID_L := 3; ID_P := 4; ID_GY := 5; ID_SM := 6 |}.

(** A world in which the light sensor holds [lightq] and the proximity
    sensor [proxq]. *)
Definition world_with (lightq proxq : list Z) (fails : option positive) (en : Z) : sim :=
  {| queues := [lightq; proxq; []; []]; pipe := []; clock := 0;
     poll_fails := fails; sim_errno := 0; enable_result := en |}.

(** The locals [pollEvents] starts with. *)
Definition entry (data count : Z) : locals :=
  {| count := count; nbEvents := 0; data := data; n := 0 |}.

Definition fresh (w : sim) : machine sim Z :=
  sensors_poll_context_t driver kernel ∅ w.

(** The context as a previous [pollEvents] call left it when it saw the
    first [k] drivers readable. *)
Definition seen_ready (k : nat) (w : sim) : machine sim Z :=
  set_fds (imap (fun i p => if bool_decide (i < k)%nat then set_revents POLLIN p else p)
             (mPollFds (fresh w))) (fresh w).

End Sim.


(** *** More readers *)

(** What [poll] is asked to watch: descriptor and interest mask of each
    entry. *)
Definition layout (fds : list pollfd) : list (Z * Z) :=
  (fun p => (fd p, events p)) <$> fds.

Definition read_driver (a : action) : option nat :=
  match a with
  | DrvRead i _ _ _ => Some i
  | _ => None
  end.

Definition pipe_read (a : action) : option Z :=
  match a with
  | SysRead fd _ => Some fd
  | _ => None
  end.


(** [P pre x] holds of every action [x] of [d] and the actions [pre]
    before it. *)
Definition every_split (P : list action -> action -> Prop) (d : list action) : Prop :=
  forall pre x post, d = pre ++ x :: post -> P pre x.

(** A read is handed the address just behind the events read before it. *)
Definition placed_at (data0 : Z) (pre : list action) (x : action) : Prop :=
  match x with
  | DrvRead _ dat _ _ => dat = data0 + stored pre
  | _ => True
  end.

(** A read is offered the capacity the reads before it left, and returns
    no more than that. *)
Definition offered (count0 : Z) (pre : list action) (x : action) : Prop :=
  match x with
  | DrvRead _ _ cnt nb => cnt = count0 - stored pre /\ 0 < cnt /\ 0 <= nb <= cnt
  | _ => True
  end.


End Sensors.

(** * Properties *)

(** ** C integers *)

Lemma int32_small z : - 2 ^ 31 <= z <= INT_MAX -> int32 z = z.
Proof.
  unfold int32, INT_MAX. intros Hz.
  rewrite Z.mod_small; lia.
Qed.

Lemma truthy_false' z : z = 0 -> truthy z = false.
Proof. now intros ->. Qed.

Lemma truthy_true z : truthy z = true <-> z <> 0.
Proof. unfold truthy. destruct (Z.eqb_spec z 0); simpl; split; congruence. Qed.

(** ** The lights actuator *)

Module LightsFacts.

Import Lights.

(** *** Brightness *)

Lemma channel_of_masked c k :
  0 <= k <= 16 ->
  Z.land (Z.shiftr (Z.land c 0x00ffffff) k) 0x00ff = Z.land (Z.shiftr c k) 0x00ff.
Proof.
  intros Hk. apply Z.bits_inj'. intros i Hi.
  rewrite !Z.land_spec, !Z.shiftr_spec, Z.land_spec by lia.
  destruct (Z.ltb_spec i 8) as [Hlt | Hge].
  - replace 0x00ffffff with (Z.ones 24) by reflexivity.
    rewrite (Z.ones_spec_low 24 (i + k)) by lia.
    now rewrite andb_true_r.
  - replace 0x00ff with (Z.ones 8) by reflexivity.
    rewrite (Z.ones_spec_high 8 i) by lia.
    now rewrite !andb_false_r.
Qed.

Lemma channel_range c k : 0 <= Z.land (Z.shiftr c k) 0x00ff <= 255.
Proof.
  assert (Z.land (Z.shiftr c k) 0x00ff = Z.shiftr c k mod 256) as ->
    by (apply (Z.land_ones _ 8); lia).
  pose proof (Z.mod_pos_bound (Z.shiftr c k) 256). lia.
Qed.

Lemma rgb_to_brightness_luma st :
  rgb_to_brightness st = luma (color st).
Proof.
  unfold rgb_to_brightness, luma, red, green, blue.
  rewrite (channel_of_masked _ 16), (channel_of_masked _ 8) by lia.
  pose proof (channel_of_masked (color st) 0) as H0.
  rewrite !Z.shiftr_0_r in H0. rewrite H0 by lia. reflexivity.
Qed.

Lemma luma_range c : 0 <= luma c <= 255.
Proof.
  unfold luma, red, green, blue.
  pose proof (channel_range c 16). pose proof (channel_range c 8).
  pose proof (channel_range c 0) as Hb. rewrite Z.shiftr_0_r in Hb.
  rewrite Z.shiftr_div_pow2 by lia. change (2 ^ 8) with 256.
  split.
  - apply Z.div_pos; lia.
  - apply Z.lt_succ_r. apply Z.div_lt_upper_bound; lia.
Qed.

(** *** Traces of the primitive calls *)

Lemma since_app s s' d : trace s' = trace s ++ d -> since s s' = d.
Proof. unfold since. intros ->. apply drop_app_length. Qed.

Lemma write_int_fails path value e s :
  open_error (fs s) path = Some e ->
  write_int path value s =
    (- e,
     let s1 := emit (SysOpen path (-1))
                 (set_errno e (emit (ALOGD "write_int" [AStr path; AInt value]) s)) in
     if write_int_already_warned s =? 0 then
       set_write_int_warned 1 (emit (ALOGE open_warning [AStr path]) s1)
     else s1).
Proof.
  intros Hfail. unfold write_int, sys_open. simpl. rewrite Hfail. simpl.
  destruct (write_int_already_warned s =? 0); reflexivity.
Qed.

Lemma write_str_fails path str e s :
  open_error (fs s) path = Some e ->
  write_str path str s =
    (- e,
     let s1 := emit (SysOpen path (-1))
                 (set_errno e (emit (ALOGD "write_str" [AStr path; AStr str]) s)) in
     if write_str_already_warned s =? 0 then
       set_write_str_warned 1 (emit (ALOGE open_warning [AStr path]) s1)
     else s1).
Proof.
  intros Hfail. unfold write_str, sys_open. simpl. rewrite Hfail. simpl.
  destruct (write_str_already_warned s =? 0); reflexivity.
Qed.

Lemma write_int_opens path value s :
  open_error (fs s) path = None ->
  exists amt s',
    write_int path value s = (amt, s')
    /\ trace s' = trace s ++
         [ALOGD "write_int" [AStr path; AInt value]; SysOpen path 3;
          SysWrite path (decimal value +:+ newline)
            (match fs s !! path with
             | Some {| write_errno := None |} =>
                 Z.of_nat (String.length (decimal value +:+ newline))
             | _ => -1
             end);
          SysClose path]
    /\ g_enable_touchlight s' = g_enable_touchlight s
    /\ write_int_already_warned s' = write_int_already_warned s
    /\ write_str_already_warned s' = write_str_already_warned s.
Proof.
  intros Hopen. unfold write_int, sys_open. simpl. rewrite Hopen. simpl.
  unfold sys_write. simpl.
  destruct (fs s !! path) as [[c oe [we|]]|] eqn:Hnode; simpl;
    eexists _, _; (split; [reflexivity|]); simpl;
    rewrite <- ?app_assoc; simpl; auto.
Qed.


Lemma load_settings_frame s :
  exists d,
    trace (load_settings s) = trace s ++ d
    /\ writes_of d = [] /\ opens_of d = [] /\ warnings_of d = []
    /\ fs (load_settings s) = fs s
    /\ write_int_already_warned (load_settings s) = write_int_already_warned s
    /\ write_str_already_warned (load_settings s) = write_str_already_warned s
    /\ g_enable_touchlight (load_settings s)
       = (if touchlight_disabled (fs s) then 0 else 1).
Proof.
  unfold load_settings, fopen_r, touchlight_disabled.
  destruct (fs s !! TOUCHLIGHT_SETTING) as [[c [e|] we]|]; simpl.
  - eexists. split; [reflexivity|]. auto 10.
  - eexists. split; [rewrite <- !app_assoc; reflexivity|]. auto 10.
  - eexists. split; [reflexivity|]. auto 10.
Qed.

(** *** Brightness written by [set_light_backlight] *)

Lemma luma_low_24_bits alpha c : luma (alpha * 2 ^ 24 + c) = luma c.
Proof.
  pose (st x := {| color := x; flashMode := 0; flashOnMS := 0;
                   flashOffMS := 0; brightnessMode := 0 |}).
  change (luma (color (st (alpha * 2 ^ 24 + c))) = luma (color (st c))).
  rewrite <- !rgb_to_brightness_luma.
  unfold rgb_to_brightness, st. simpl color.
  assert (Z.land (alpha * 2 ^ 24 + c) 0x00ffffff = Z.land c 0x00ffffff) as ->;
    [|reflexivity].
  change 0x00ffffff with (Z.ones 24).
  rewrite !Z.land_ones by lia.
  rewrite Z.add_comm. apply Z.mod_add. lia.
Qed.

(** C9.  The brightness [set_light_backlight] derives is the fixed luma
    weighting [(77*r + 150*g + 29*b) >> 8] of the red, green and blue bytes
    of the colour; whatever sits above the low 24 bits (the alpha byte) has
    no influence; the value lies in 0..255; the only write the call issues
    is that value in decimal, newline-terminated, to the LCD node (and none
    when the node cannot be opened); pure red, green, blue and white give
    76, 149, 28 and 255. *)
Theorem backlight_brightness_is_luma :
  (forall st, rgb_to_brightness st = luma (color st))
  /\ (forall alpha c, luma (alpha * 2 ^ 24 + c) = luma c)
  /\ (forall c, 0 <= luma c <= 255)
  /\ (forall st s, exists d,
        trace (snd (set_light_backlight st s)) = trace s ++ d
        /\ writes_of d =
             match open_error (fs s) LCD_FILE with
             | None => [(LCD_FILE, decimal (luma (color st)) +:+ newline)]
             | Some _ => []
             end)
  /\ luma 0x00FF0000 = 76 /\ luma 0x0000FF00 = 149
  /\ luma 0x000000FF = 28 /\ luma 0x00FFFFFF = 255.
Proof.
  split; [exact rgb_to_brightness_luma|].
  split; [exact luma_low_24_bits|].
  split; [exact luma_range|].
  split; [|repeat split; reflexivity].
  intros st s. unfold set_light_backlight.
  destruct (load_settings_frame s) as (d0 & Htr & Hw & _ & _ & Hfs & _).
  remember (emit MutexLock (emit _ (load_settings s))) as s1 eqn:Hs1.
  assert (Hfs1 : fs s1 = fs s) by (subst s1; exact Hfs).
  assert (Htr1 : exists d1, trace s1 = trace s ++ d1 /\ writes_of d1 = []).
  { eexists. subst s1. simpl. rewrite Htr, <- !app_assoc. split; [reflexivity|].
    unfold writes_of in *. rewrite omap_app, Hw. reflexivity. }
  destruct Htr1 as (d1 & Htr1 & Hw1). clear Hs1.
  rewrite rgb_to_brightness_luma.
  destruct (open_error (fs s) LCD_FILE) as [e|] eqn:Hopen.
  - rewrite (write_int_fails _ _ e) by (rewrite Hfs1; exact Hopen).
    simpl. destruct (write_int_already_warned s1 =? 0); simpl;
      rewrite Htr1, <- !app_assoc; eexists; (split; [reflexivity|]);
      unfold writes_of in *; rewrite omap_app, Hw1; reflexivity.
  - destruct (write_int_opens LCD_FILE (luma (color st)) s1) as (amt & s' & Hrun & Htr' & _).
    { rewrite Hfs1. exact Hopen. }
    rewrite Hrun. simpl. rewrite Htr', Htr1, <- !app_assoc.
    eexists. split; [reflexivity|].
    unfold writes_of in *. rewrite omap_app, Hw1. reflexivity.
Qed.


(** *** The button light and the persisted preference *)

Lemma write_int_summary path value s :
  exists d,
    trace (snd (write_int path value s)) = trace s ++ d
    /\ opens_of d = [path]
    /\ setting_reads_of d = []
    /\ writes_of d =
         match open_error (fs s) path with
         | None => [(path, decimal value +:+ newline)]
         | Some _ => []
         end
    /\ g_enable_touchlight (snd (write_int path value s)) = g_enable_touchlight s.
Proof.
  destruct (open_error (fs s) path) as [e|] eqn:Hopen.
  - rewrite (write_int_fails _ _ e) by exact Hopen. simpl.
    destruct (write_int_already_warned s =? 0); simpl;
      rewrite <- !app_assoc; eexists; (split; [reflexivity|]); auto.
  - destruct (write_int_opens path value s Hopen) as (amt & s' & Hrun & Htr & Hg & _).
    rewrite Hrun. simpl. eexists. split; [exact Htr|]. auto.
Qed.

(** C7, as the code has it.  [set_light_buttons] never reads the preference
    file and never changes the cached flag; it opens the button node, and
    writes 1 or 2 to it, exactly when the cached [g_enable_touchlight] is
    -1 or positive, and otherwise touches no file and returns 0.  The
    cache starts at -1 and is loaded by every [set_light_backlight] call:
    0 when the preference file can be read and starts with ['1'], 1
    otherwise. *)
Theorem buttons_gated_by_cached_setting :
  (forall st s,
      let r := set_light_buttons st s in
      let tlc := if truthy (Z.land (color st) 0x00ffffff) then 1 else 2 in
      setting_reads_of (since s (snd r)) = []
      /\ g_enable_touchlight (snd r) = g_enable_touchlight s
      /\ (if (g_enable_touchlight s =? -1) || (0 <? g_enable_touchlight s)
          then opens_of (since s (snd r)) = [BUTTONS_FILE]
               /\ writes_of (since s (snd r)) =
                    match open_error (fs s) BUTTONS_FILE with
                    | None => [(BUTTONS_FILE, decimal tlc +:+ newline)]
                    | Some _ => []
                    end
          else opens_of (since s (snd r)) = []
               /\ writes_of (since s (snd r)) = []
               /\ fst r = 0))
  /\ (forall files, g_enable_touchlight (boot files) = -1)
  /\ (forall st s,
        g_enable_touchlight (snd (set_light_backlight st s))
        = if touchlight_disabled (fs s) then 0 else 1).
Proof.
  split; [|split; [reflexivity|]].
  - intros st s. cbv zeta. unfold set_light_buttons.
    set (tlc := if truthy (Z.land (color st) 0x00ffffff) then 1 else 2).
    remember (emit MutexLock (emit _ s)) as s1 eqn:Hs1.
    assert (Hg1 : g_enable_touchlight s1 = g_enable_touchlight s)
      by (subst s1; reflexivity).
    assert (Hfs1 : fs s1 = fs s) by (subst s1; reflexivity).
    assert (Htr1 : trace s1 =
                   trace s ++ [ALOGD "set_light_buttons" [AInt (color st); AInt tlc];
                               MutexLock])
      by (subst s1; simpl; rewrite <- app_assoc; reflexivity).
    clear Hs1. rewrite Hg1.
    destruct ((g_enable_touchlight s =? -1) || (0 <? g_enable_touchlight s)).
    + destruct (write_int_summary BUTTONS_FILE tlc s1)
        as (d & Htr & Hop & Hrd & Hwr & Hg).
      destruct (write_int BUTTONS_FILE tlc s1) as [res s2]. simpl in *.
      rewrite (since_app s _ ([ALOGD "set_light_buttons" [AInt (color st); AInt tlc];
                               MutexLock] ++ d ++ [MutexUnlock]))
        by (simpl; rewrite Htr, Htr1, <- !app_assoc; reflexivity).
      unfold setting_reads_of, opens_of, writes_of in *.
      rewrite !omap_app, ?Hop, ?Hrd, ?Hwr, Hfs1. simpl.
      rewrite ?app_nil_r. repeat split; congruence.
    + simpl. rewrite (since_app s _ ([ALOGD "set_light_buttons" [AInt (color st); AInt tlc];
                               MutexLock] ++ [MutexUnlock]))
        by (simpl; rewrite Htr1, <- !app_assoc; reflexivity).
      simpl. auto 10.
  - intros st s. unfold set_light_backlight.
    destruct (load_settings_frame s) as (d & _ & _ & _ & _ & _ & _ & _ & Hg).
    remember (emit MutexLock (emit _ (load_settings s))) as s1 eqn:Hs1.
    assert (Hg1 : g_enable_touchlight s1 = g_enable_touchlight (load_settings s))
      by (subst s1; reflexivity).
    clear Hs1.
    destruct (write_int_summary LCD_FILE (rgb_to_brightness st) s1)
      as (d' & _ & _ & _ & _ & Hg').
    destruct (write_int LCD_FILE (rgb_to_brightness st) s1) as [res s2].
    simpl in *. congruence.
Qed.

(** C7, as stated, fails: with the preference file holding ['1'] and no
    backlight call made yet, a button-light call reads no file and writes
    the button node. *)
Lemma buttons_gated_by_file_counterexample :
  let s := boot (handset (Some "1")) in
  let r := set_light_buttons white s in
  touchlight_disabled (fs s) = true
  /\ setting_reads_of (since s (snd r)) = []
  /\ writes_of (since s (snd r)) = [(BUTTONS_FILE, decimal 1 +:+ newline)]
  /\ fst r = 0
  /\ ~ buttons_gated_by_file white s.
Proof.
  intros s r.
  assert (Hflag : touchlight_disabled (fs s) = true) by (vm_compute; reflexivity).
  assert (Hopens : opens_of (since s (snd r)) = [BUTTONS_FILE])
    by (vm_compute; reflexivity).
  split; [exact Hflag|]. split; [vm_compute; reflexivity|].
  split; [vm_compute; reflexivity|]. split; [vm_compute; reflexivity|].
  unfold buttons_gated_by_file. intros (_ & Hskip & _).
  destruct (Hskip Hflag) as [Hnone _]. fold r in Hnone.
  rewrite Hopens in Hnone. discriminate Hnone.
Qed.


(** *** Warnings on failed opens *)

Lemma warned_open_warning path : warned (ALOGE open_warning [AStr path]) = Some [AStr path].
Proof. unfold warned. now rewrite String.eqb_refl. Qed.

Lemma write_int_warnings path value s :
  warnings_of (since s (snd (write_int path value s))) =
    match open_error (fs s) path with
    | Some _ => if write_int_already_warned s =? 0 then [[AStr path]] else []
    | None => []
    end.
Proof.
  destruct (open_error (fs s) path) as [e|] eqn:Hopen.
  - rewrite (write_int_fails _ _ e) by exact Hopen. simpl.
    destruct (write_int_already_warned s =? 0); simpl.
    + rewrite (since_app s _ [ALOGD "write_int" [AStr path; AInt value];
                               SysOpen path (-1); ALOGE open_warning [AStr path]])
        by (simpl; rewrite <- !app_assoc; reflexivity).
      unfold warnings_of. cbn -[warned]. rewrite warned_open_warning. reflexivity.
    + rewrite (since_app s _ [ALOGD "write_int" [AStr path; AInt value];
                               SysOpen path (-1)])
        by (simpl; rewrite <- !app_assoc; reflexivity).
      reflexivity.
  - destruct (write_int_opens path value s Hopen) as (amt & s' & Hrun & Htr & _).
    rewrite Hrun. simpl. rewrite (since_app _ _ _ Htr). reflexivity.
Qed.

Lemma write_str_warnings path str s :
  warnings_of (since s (snd (write_str path str s))) =
    match open_error (fs s) path with
    | Some _ => if write_str_already_warned s =? 0 then [[AStr path]] else []
    | None => []
    end.
Proof.
  destruct (open_error (fs s) path) as [e|] eqn:Hopen.
  - rewrite (write_str_fails _ _ e) by exact Hopen. simpl.
    destruct (write_str_already_warned s =? 0); simpl.
    + rewrite (since_app s _ [ALOGD "write_str" [AStr path; AStr str];
                               SysOpen path (-1); ALOGE open_warning [AStr path]])
        by (simpl; rewrite <- !app_assoc; reflexivity).
      unfold warnings_of. cbn -[warned]. rewrite warned_open_warning. reflexivity.
    + rewrite (since_app s _ [ALOGD "write_str" [AStr path; AStr str];
                               SysOpen path (-1)])
        by (simpl; rewrite <- !app_assoc; reflexivity).
      reflexivity.
  - unfold write_str, sys_open. simpl. rewrite Hopen. simpl. unfold sys_write. simpl.
    destruct (fs s !! path) as [[c oe [we|]]|]; simpl;
      (erewrite since_app; [|simpl; rewrite <- !app_assoc; reflexivity]);
      reflexivity.
Qed.

Lemma both_sticky_refl s : both_sticky s s.
Proof. split; auto. Qed.

Lemma both_sticky_trans s1 s2 s3 :
  both_sticky s1 s2 -> both_sticky s2 s3 -> both_sticky s1 s3.
Proof. unfold both_sticky. intuition. Qed.

Lemma write_int_sticky path value s : both_sticky s (snd (write_int path value s)).
Proof.
  destruct (open_error (fs s) path) as [e|] eqn:Hopen.
  - rewrite (write_int_fails _ _ e) by exact Hopen. simpl.
    destruct (Z.eqb_spec (write_int_already_warned s) 0); split; simpl; auto; lia.
  - destruct (write_int_opens path value s Hopen) as (amt & s' & Hrun & _ & _ & Hi & Hs).
    rewrite Hrun. simpl. split; congruence.
Qed.

Lemma write_str_sticky path str s : both_sticky s (snd (write_str path str s)).
Proof.
  destruct (open_error (fs s) path) as [e|] eqn:Hopen.
  - rewrite (write_str_fails _ _ e) by exact Hopen. simpl.
    destruct (Z.eqb_spec (write_str_already_warned s) 0); split; simpl; auto; lia.
  - unfold write_str, sys_open. simpl. rewrite Hopen. simpl. unfold sys_write. simpl.
    destruct (fs s !! path) as [[c oe [we|]]|]; simpl; split; auto.
Qed.

Ltac run_write :=
  match goal with
  | |- context [write_int ?p ?v ?x] =>
      let H := fresh "Hw" in
      pose proof (write_int_sticky p v x) as H; destruct (write_int p v x) as [? ?]
  | |- context [write_str ?p ?v ?x] =>
      let H := fresh "Hw" in
      pose proof (write_str_sticky p v x) as H; destruct (write_str p v x) as [? ?]
  end.

Ltac sticky_done := unfold both_sticky, emit in *; simpl in *; intuition congruence.

Lemma set_light_sticky c s : both_sticky s (snd (set_light c s)).
Proof.
  destruct c as [st|st|st|st|st]; simpl; try apply both_sticky_refl.
  - unfold set_light_backlight.
    destruct (load_settings_frame s) as (d & _ & _ & _ & _ & _ & Hi & Hs & _).
    run_write. sticky_done.
  - unfold set_light_buttons.
    destruct ((g_enable_touchlight _ =? -1) || (0 <? g_enable_touchlight _)).
    + run_write. sticky_done.
    + sticky_done.
  - unfold set_light_notifications. run_write.
    destruct (truthy (g_notification_blink_support _) && _ && _).
    + destruct (truthy (g_notification_blink_rate_support _)).
      * run_write. run_write. sticky_done.
      * run_write. sticky_done.
    + sticky_done.
Qed.

Lemma exec_sticky calls s : both_sticky s (exec calls s).
Proof.
  revert s. induction calls as [|c calls IH]; intros s; simpl.
  - apply both_sticky_refl.
  - eapply both_sticky_trans; [apply set_light_sticky|apply IH].
Qed.


(** C8, as the code has it.  When the open of [path] fails with [errno]
    [e], [write_int] and [write_str] return [-e] (the [errno] the state then
    holds), on every such call.  The warning is kept per function, not per
    path: the call logs it exactly when the function's own [already_warned]
    flag is still 0 (as it is after start-up), and after the call no later
    [write_int] (resp. [write_str]), on this or any other path and after
    any further [set_light] calls, logs a warning again. *)
Theorem open_failure_warns_once_per_function path e s
  (Hfail : open_error (fs s) path = Some e) :
  (forall value,
      let r := write_int path value s in
      fst r = - e /\ errno (snd r) = e
      /\ warnings_of (since s (snd r)) =
           (if write_int_already_warned s =? 0 then [[AStr path]] else [])
      /\ forall calls path' value',
           let s' := exec calls (snd r) in
           warnings_of (since s' (snd (write_int path' value' s'))) = [])
  /\ (forall str,
        let r := write_str path str s in
        fst r = - e /\ errno (snd r) = e
        /\ warnings_of (since s (snd r)) =
             (if write_str_already_warned s =? 0 then [[AStr path]] else [])
        /\ forall calls path' str',
             let s' := exec calls (snd r) in
             warnings_of (since s' (snd (write_str path' str' s'))) = []).
Proof.
  split.
  - intros value r.
    pose proof (write_int_warnings path value s) as Hwarn.
    rewrite Hfail in Hwarn. fold r in Hwarn.
    assert (Hr : r = write_int path value s) by reflexivity.
    rewrite (write_int_fails _ _ _ _ Hfail) in Hr.
    assert (Hflag : write_int_already_warned (snd r) <> 0).
    { rewrite Hr. simpl.
      destruct (Z.eqb_spec (write_int_already_warned s) 0); simpl; lia. }
    repeat split.
    + now rewrite Hr.
    + rewrite Hr. simpl. now destruct (write_int_already_warned s =? 0).
    + exact Hwarn.
    + intros calls path' value' s'.
      rewrite write_int_warnings.
      destruct (open_error (fs s') path'); [|reflexivity].
      destruct (exec_sticky calls (snd r)) as [Hst _]. fold s' in Hst.
      specialize (Hst Hflag). apply Z.eqb_neq in Hst. now rewrite Hst.
  - intros str r.
    pose proof (write_str_warnings path str s) as Hwarn.
    rewrite Hfail in Hwarn. fold r in Hwarn.
    assert (Hr : r = write_str path str s) by reflexivity.
    rewrite (write_str_fails _ _ _ _ Hfail) in Hr.
    assert (Hflag : write_str_already_warned (snd r) <> 0).
    { rewrite Hr. simpl.
      destruct (Z.eqb_spec (write_str_already_warned s) 0); simpl; lia. }
    repeat split.
    + now rewrite Hr.
    + rewrite Hr. simpl. now destruct (write_str_already_warned s =? 0).
    + exact Hwarn.
    + intros calls path' str' s'.
      rewrite write_str_warnings.
      destruct (open_error (fs s') path'); [|reflexivity].
      destruct (exec_sticky calls (snd r)) as [_ Hst]. fold s' in Hst.
      specialize (Hst Hflag). apply Z.eqb_neq in Hst. now rewrite Hst.
Qed.

(** On a device without any of the control nodes, the first notification
    write fails with [ENOENT]. *)
Lemma open_failure_warns_once_per_function_witness :
  open_error (fs (boot ∅)) NOTIFICATION_FILE = Some ENOENT
  /\ fst (write_int NOTIFICATION_FILE 1 (boot ∅)) = - ENOENT
  /\ warnings_of (since (boot ∅) (snd (write_int NOTIFICATION_FILE 1 (boot ∅))))
     = [[AStr NOTIFICATION_FILE]].
Proof.
  assert (Hfail : open_error (fs (boot ∅)) NOTIFICATION_FILE = Some ENOENT)
    by reflexivity.
  split; [exact Hfail|].
  destruct (open_failure_warns_once_per_function NOTIFICATION_FILE ENOENT (boot ∅) Hfail)
    as [Hint _].
  destruct (Hint 1) as (Hret & _ & Hwarn & _).
  split; [exact Hret | exact Hwarn].
Defined.

(** C8, as stated, fails: after a failed open of the LCD node has been
    logged, the first failed open of the (distinct) button node is not. *)
Lemma warns_once_per_path_counterexample :
  let s1 := snd (write_int LCD_FILE 255 (boot ∅)) in
  let r := write_int BUTTONS_FILE 1 s1 in
  warnings_of (trace s1) = [[AStr LCD_FILE]]
  /\ failed_opens BUTTONS_FILE (trace s1) = 0%nat
  /\ fst r = - ENOENT
  /\ failed_opens BUTTONS_FILE (trace (snd r)) = 1%nat
  /\ warnings_of (since s1 (snd r)) = []
  /\ ~ warns_once_per_path BUTTONS_FILE 1 s1.
Proof.
  intros s1 r.
  assert (Hnone : failed_opens BUTTONS_FILE (trace s1) = 0%nat)
    by (vm_compute; reflexivity).
  assert (Hquiet : warnings_of (since s1 (snd r)) = []) by (vm_compute; reflexivity).
  split; [vm_compute; reflexivity|]. split; [exact Hnone|].
  split; [vm_compute; reflexivity|]. split; [vm_compute; reflexivity|].
  split; [exact Hquiet|].
  unfold warns_once_per_path. intros [Hfirst _].
  specialize (Hfirst Hnone). fold r in Hfirst.
  rewrite Hquiet in Hfirst. discriminate Hfirst.
Qed.


(** *** What a write leaves in the file system *)




(** *** Frames of the two writers *)

Lemma insert_keeps_open_error (files : gmap string file) path f data q :
  files !! path = Some f ->
  open_error
    (<[path := {| contents := data; open_errno := open_errno f;
                  write_errno := write_errno f |}]> files) q
  = open_error files q.
Proof.
  intros Hnode. unfold open_error.
  destruct (decide (path = q)) as [<-|Hne].
  - rewrite lookup_insert_eq, Hnode. reflexivity.
  - now rewrite lookup_insert_ne.
Qed.

Lemma insert_keeps_healthy (files : gmap string file) path f data q :
  files !! path = Some f ->
  healthy
    (<[path := {| contents := data; open_errno := open_errno f;
                  write_errno := write_errno f |}]> files) q
  = healthy files q.
Proof.
  intros Hnode. unfold healthy.
  destruct (decide (path = q)) as [<-|Hne].
  - rewrite lookup_insert_eq, Hnode. reflexivity.
  - now rewrite lookup_insert_ne.
Qed.

Lemma write_int_frame path value s :
  let s' := snd (write_int path value s) in
  g_notification_blink_support s' = g_notification_blink_support s
  /\ g_notification_blink_rate_support s' = g_notification_blink_rate_support s
  /\ (forall q, open_error (fs s') q = open_error (fs s) q)
  /\ (forall q, healthy (fs s') q = healthy (fs s) q).
Proof.
  cbv zeta. destruct (open_error (fs s) path) as [e|] eqn:Hopen.
  - rewrite (write_int_fails _ _ e) by exact Hopen. simpl.
    destruct (write_int_already_warned s =? 0); simpl; auto.
  - unfold write_int, sys_open. simpl. rewrite Hopen. simpl. unfold sys_write. simpl.
    destruct (fs s !! path) as [[c oe [we|]]|] eqn:Hnode; simpl; auto.
    repeat split; intros q.
    + apply (insert_keeps_open_error _ _
               {| contents := c; open_errno := oe; write_errno := None |} _ _ Hnode).
    + apply (insert_keeps_healthy _ _
               {| contents := c; open_errno := oe; write_errno := None |} _ _ Hnode).
Qed.

Lemma write_str_frame path str s :
  let s' := snd (write_str path str s) in
  g_notification_blink_support s' = g_notification_blink_support s
  /\ g_notification_blink_rate_support s' = g_notification_blink_rate_support s
  /\ (forall q, open_error (fs s') q = open_error (fs s) q)
  /\ (forall q, healthy (fs s') q = healthy (fs s) q).
Proof.
  cbv zeta. destruct (open_error (fs s) path) as [e|] eqn:Hopen.
  - rewrite (write_str_fails _ _ e) by exact Hopen. simpl.
    destruct (write_str_already_warned s =? 0); simpl; auto.
  - unfold write_str, sys_open. simpl. rewrite Hopen. simpl. unfold sys_write. simpl.
    destruct (fs s !! path) as [[c oe [we|]]|] eqn:Hnode; simpl; auto.
    repeat split; intros q.
    + apply (insert_keeps_open_error _ _
               {| contents := c; open_errno := oe; write_errno := None |} _ _ Hnode).
    + apply (insert_keeps_healthy _ _
               {| contents := c; open_errno := oe; write_errno := None |} _ _ Hnode).
Qed.

(** The events of one [write_int] or [write_str]: all made with the lock
    held when it was held on entry, one open, and the write when the open
    succeeds. *)
Lemma write_int_events path value s :
  exists d,
    trace (snd (write_int path value s)) = trace s ++ d
    /\ locked_after true d = Some true
    /\ opens_of d = [path]
    /\ writes_of d =
         match open_error (fs s) path with
         | None => [(path, decimal value +:+ newline)]
         | Some _ => []
         end.
Proof.
  destruct (open_error (fs s) path) as [e|] eqn:Hopen.
  - rewrite (write_int_fails _ _ e) by exact Hopen. simpl.
    destruct (write_int_already_warned s =? 0); simpl;
      rewrite <- !app_assoc; eexists; (split; [reflexivity|]); auto.
  - destruct (write_int_opens path value s Hopen) as (amt & s' & Hrun & Htr & _).
    rewrite Hrun. simpl. eexists. split; [exact Htr|]. auto.
Qed.

Lemma write_str_events path str s :
  exists d,
    trace (snd (write_str path str s)) = trace s ++ d
    /\ locked_after true d = Some true
    /\ opens_of d = [path]
    /\ writes_of d =
         match open_error (fs s) path with
         | None => [(path, str)]
         | Some _ => []
         end.
Proof.
  destruct (open_error (fs s) path) as [e|] eqn:Hopen.
  - rewrite (write_str_fails _ _ e) by exact Hopen. simpl.
    destruct (write_str_already_warned s =? 0); simpl;
      rewrite <- !app_assoc; eexists; (split; [reflexivity|]); auto.
  - unfold write_str, sys_open. simpl. rewrite Hopen. simpl. unfold sys_write. simpl.
    destruct (fs s !! path) as [[c oe [we|]]|]; simpl;
      rewrite <- !app_assoc; eexists; (split; [reflexivity|]); auto.
Qed.

Lemma locked_after_app held d1 d2 :
  locked_after held (d1 ++ d2) =
    match locked_after held d1 with
    | Some held' => locked_after held' d2
    | None => None
    end.
Proof.
  revert held. induction d1 as [|e d1 IH]; intros held; simpl; [reflexivity|].
  destruct e, held; simpl; auto.
Qed.


(** *** The lock and the warnings over whole calls *)

Ltac run_events :=
  match goal with
  | |- context [write_int ?p ?v ?x] =>
      let d := fresh "d" in
      let Htr := fresh "Htr" in
      let Hl := fresh "Hl" in
      destruct (write_int_events p v x) as (d & Htr & Hl & _);
      destruct (write_int p v x) as [? ?]
  | |- context [write_str ?p ?v ?x] =>
      let d := fresh "d" in
      let Htr := fresh "Htr" in
      let Hl := fresh "Hl" in
      destruct (write_str_events p v x) as (d & Htr & Hl & _);
      destruct (write_str p v x) as [? ?]
  end.

Lemma load_settings_unlocked s :
  exists d, trace (load_settings s) = trace s ++ d /\ locked_after false d = Some false.
Proof.
  unfold load_settings, fopen_r.
  destruct (fs s !! TOUCHLIGHT_SETTING) as [[c [e|] we]|]; simpl;
    rewrite <- ?app_assoc; eexists; (split; [reflexivity|]); reflexivity.
Qed.

Ltac solve_locked :=
  repeat first
    [ progress simpl
    | rewrite locked_after_app
    | match goal with H : locked_after _ _ = _ |- _ => rewrite H end ];
  reflexivity.

Lemma set_light_locked c s :
  exists d,
    trace (snd (set_light c s)) = trace s ++ d /\ locked_after false d = Some false.
Proof.
  destruct c as [st|st|st|st|st]; simpl;
    try (exists []; rewrite app_nil_r; split; reflexivity).
  - unfold set_light_backlight.
    destruct (load_settings_unlocked s) as (d0 & Htr0 & Hl0).
    run_events. unfold emit in *. simpl in *.
    rewrite Htr, Htr0, <- !app_assoc. eexists. split; [reflexivity|].
    solve_locked.
  - unfold set_light_buttons.
    destruct ((g_enable_touchlight _ =? -1) || (0 <? g_enable_touchlight _)).
    + run_events. unfold emit in *. simpl in *.
      rewrite Htr, <- !app_assoc. eexists. split; [reflexivity|].
      solve_locked.
    + unfold emit. simpl. rewrite <- !app_assoc. eexists.
      split; [reflexivity|]. reflexivity.
  - unfold set_light_notifications. run_events.
    destruct (truthy (g_notification_blink_support _) && _ && _).
    + destruct (truthy (g_notification_blink_rate_support _)).
      * run_events. run_events. unfold emit in *. simpl in *.
        rewrite Htr1, Htr0, Htr, <- !app_assoc. eexists. split; [reflexivity|].
        solve_locked.
      * run_events. unfold emit in *. simpl in *.
        rewrite Htr0, Htr, <- !app_assoc. eexists. split; [reflexivity|].
        solve_locked.
    + unfold emit in *. simpl in *.
      rewrite Htr, <- !app_assoc. eexists. split; [reflexivity|].
      solve_locked.
Qed.

(** X3.  Over any sequence of [set_light] calls, every open, write and
    close of a control node happens with [g_lock] held, the lock is never
    taken while held nor released while free, and it is free again when
    the calls are over. *)
Theorem control_nodes_under_lock calls s :
  trace (exec calls s) = trace s ++ since s (exec calls s)
  /\ locked_after false (since s (exec calls s)) = Some false.
Proof.
  assert (H : exists d, trace (exec calls s) = trace s ++ d
                        /\ locked_after false d = Some false).
  { revert s. induction calls as [|c calls IH]; intros s; simpl.
    - exists []. rewrite app_nil_r. split; reflexivity.
    - destruct (set_light_locked c s) as (d1 & Htr1 & Hl1).
      destruct (IH (snd (set_light c s))) as (d2 & Htr2 & Hl2).
      exists (d1 ++ d2). rewrite Htr2, Htr1, <- app_assoc.
      split; [reflexivity|]. now rewrite locked_after_app, Hl1. }
  destruct H as (d & Htr & Hl). now rewrite (since_app _ _ _ Htr).
Qed.


Lemma warnings_of_app d1 d2 : warnings_of (d1 ++ d2) = warnings_of d1 ++ warnings_of d2.
Proof. apply omap_app. Qed.

Lemma write_int_budget path value s :
  (length (warnings_of (trace (snd (write_int path value s))))
   + warning_budget (snd (write_int path value s))
   <= length (warnings_of (trace s)) + warning_budget s)%nat.
Proof.
  destruct (open_error (fs s) path) as [e|] eqn:Hopen.
  - rewrite (write_int_fails _ _ e) by exact Hopen. simpl.
    unfold warning_budget.
    destruct (write_int_already_warned s =? 0) eqn:Hflag; simpl.
    + rewrite !warnings_of_app, !length_app. cbn -[warned].
      rewrite warned_open_warning. simpl. lia.
    + rewrite Hflag, !warnings_of_app, !length_app. simpl. lia.
  - destruct (write_int_opens path value s Hopen)
      as (amt & s' & Hrun & Htr & _ & Hi & Hs).
    rewrite Hrun. simpl. unfold warning_budget. rewrite Hi, Hs, Htr.
    rewrite warnings_of_app, length_app. simpl. lia.
Qed.

Lemma write_str_budget path str s :
  (length (warnings_of (trace (snd (write_str path str s))))
   + warning_budget (snd (write_str path str s))
   <= length (warnings_of (trace s)) + warning_budget s)%nat.
Proof.
  destruct (open_error (fs s) path) as [e|] eqn:Hopen.
  - rewrite (write_str_fails _ _ e) by exact Hopen. simpl.
    unfold warning_budget.
    destruct (write_str_already_warned s =? 0) eqn:Hflag; simpl.
    + rewrite !warnings_of_app, !length_app. cbn -[warned].
      rewrite warned_open_warning. simpl. lia.
    + rewrite Hflag, !warnings_of_app, !length_app. simpl. lia.
  - unfold write_str, sys_open. simpl. rewrite Hopen. simpl. unfold sys_write. simpl.
    unfold warning_budget.
    destruct (fs s !! path) as [[c oe [we|]]|]; simpl;
      rewrite !warnings_of_app, !length_app; simpl; lia.
Qed.

Ltac run_budget :=
  match goal with
  | |- context [write_int ?p ?v ?x] =>
      let H := fresh "Hb" in
      pose proof (write_int_budget p v x) as H; destruct (write_int p v x) as [? ?]
  | |- context [write_str ?p ?v ?x] =>
      let H := fresh "Hb" in
      pose proof (write_str_budget p v x) as H; destruct (write_str p v x) as [? ?]
  end.

Ltac budget_done :=
  unfold warning_budget, emit in *; simpl in *;
  rewrite ?warnings_of_app, ?length_app in *; simpl in *; lia.

Lemma set_light_budget c s :
  (length (warnings_of (trace (snd (set_light c s))))
   + warning_budget (snd (set_light c s))
   <= length (warnings_of (trace s)) + warning_budget s)%nat.
Proof.
  destruct c as [st|st|st|st|st]; simpl; try lia.
  - unfold set_light_backlight.
    destruct (load_settings_frame s) as (d & Htr & _ & _ & Hw & _ & Hi & Hs & _).
    run_budget.
    assert (Hd : length (warnings_of (trace (load_settings s)))
                 = length (warnings_of (trace s)))
      by (rewrite Htr, warnings_of_app, Hw, app_nil_r; reflexivity).
    unfold warning_budget, emit in *. simpl in *.
    rewrite ?warnings_of_app, ?length_app in *. simpl in *.
    rewrite Hi, Hs in Hb. cbn -[warned] in *. lia.
  - unfold set_light_buttons.
    destruct ((g_enable_touchlight _ =? -1) || (0 <? g_enable_touchlight _)).
    + run_budget. budget_done.
    + budget_done.
  - unfold set_light_notifications. run_budget.
    destruct (truthy (g_notification_blink_support _) && _ && _).
    + destruct (truthy (g_notification_blink_rate_support _)).
      * run_budget. run_budget. budget_done.
      * run_budget. budget_done.
    + budget_done.
Qed.

(** X4.  However many [set_light] calls fail to open their nodes, the
    open-failure warnings logged never outnumber the [already_warned]
    flags that were still 0 at the start: at most two in the life of a
    process. *)
Theorem open_warnings_bounded calls :
  (forall s,
      length (warnings_of (trace (exec calls s)))
      <= length (warnings_of (trace s)) + warning_budget s)%nat
  /\ (forall files, length (warnings_of (trace (exec calls (boot files)))) <= 2)%nat.
Proof.
  assert (H : forall s,
             (length (warnings_of (trace (exec calls s))) + warning_budget (exec calls s)
              <= length (warnings_of (trace s)) + warning_budget s)%nat).
  { induction calls as [|c calls IH]; intros s; simpl; [lia|].
    pose proof (IH (snd (set_light c s))). pose proof (set_light_budget c s). lia. }
  split.
  - intros s. specialize (H s). lia.
  - intros files. specialize (H (boot files)). simpl in H.
    unfold warning_budget in H at 2. simpl in H. lia.
Qed.


(** *** Notifications *)

Lemma write_int_healthy path value s :
  healthy (fs s) path = true -> fst (write_int path value s) = 0.
Proof.
  unfold healthy. intros H.
  destruct (fs s !! path) as [[c [oe|] [we|]]|] eqn:Hnode; try discriminate H.
  unfold write_int, sys_open, open_error. simpl. rewrite Hnode. simpl.
  unfold sys_write. simpl. rewrite Hnode. simpl.
  destruct (Z.eqb_spec (Z.of_nat (String.length (decimal value +:+ newline))) (-1));
    [lia|reflexivity].
Qed.

Lemma length_truncate size str : (String.length (truncate size str) <= size - 1)%nat.
Proof.
  unfold truncate. generalize (size - 1)%nat as m. intros m. revert str.
  induction m as [|m IH]; intros [|c str]; simpl; try lia.
  specialize (IH str). lia.
Qed.

Ltac run_step :=
  match goal with
  | |- context [write_int ?p ?v ?x] =>
      let d := fresh "d" in
      let Htr := fresh "Htr" in
      let Hop := fresh "Hop" in
      let Hwr := fresh "Hwr" in
      let Hret0 := fresh "Hret0" in
      let Hrete := fresh "Hrete" in
      let Hf := fresh "Hf" in
      destruct (write_int_events p v x) as (d & Htr & _ & Hop & Hwr);
      pose proof (write_int_healthy p v x) as Hret0;
      pose proof (fun e H => f_equal fst (write_int_fails p v e x H)) as Hrete;
      pose proof (write_int_frame p v x) as Hf;
      destruct (write_int p v x) as [? ?]
  | |- context [write_str ?p ?v ?x] =>
      let d := fresh "d" in
      let Htr := fresh "Htr" in
      let Hop := fresh "Hop" in
      let Hwr := fresh "Hwr" in
      let Hf := fresh "Hf" in
      destruct (write_str_events p v x) as (d & Htr & _ & Hop & Hwr);
      pose proof (write_str_frame p v x) as Hf;
      destruct (write_str p v x) as [? ?]
  end.

(** X5.  [set_light_notifications] opens the LED node first and, only when
    blinking is supported, the colour is not black and a flash mode is
    asked for, the interval node (if supported) and then the blink node.
    What it writes is 1 or 0 for on or off, and the interval as the two
    durations separated by a space, cut to at most 9 characters.  The
    status it returns is that of the last node alone: 0 when that node
    opens and takes the write, whatever happened to the earlier ones, and
    the negated [errno] when that node fails to open. *)
Theorem notifications_nodes_and_status st s :
  let r := set_light_notifications st s in
  let final := last (notification_nodes st s) in
  opens_of (since s (snd r)) = notification_nodes st s
  /\ writes_of (since s (snd r)) =
       filter (fun pw => open_error (fs s) (fst pw) = None) (notification_writes st s)
  /\ (forall data,
        (NOTIFICATION_BLINK_RATE_FILE, data) ∈ notification_writes st s ->
        (String.length data <= 9)%nat)
  /\ (forall path, final = Some path -> healthy (fs s) path = true -> fst r = 0)
  /\ (forall path e, final = Some path -> open_error (fs s) path = Some e -> fst r = - e).
Proof.
  cbv zeta. split; [|split; [|split]].
  - unfold set_light_notifications, notification_nodes.
    destruct (truthy (Z.land (color st) 16777215)); simpl; run_step;
      destruct Hf as (Hb & Hrate & _); simpl in Hb, Hrate, Htr; rewrite Hb;
      rewrite ?andb_true_r, ?andb_false_r; simpl.
    + destruct (truthy (g_notification_blink_support s) && truthy (flashMode st)).
      * rewrite Hrate. destruct (truthy (g_notification_blink_rate_support s)).
        -- run_step. run_step. unfold emit in *. simpl in *.
           erewrite since_app;
             [|rewrite Htr1, Htr0, Htr, <- !app_assoc; reflexivity].
           unfold opens_of in *. rewrite !omap_app, Hop, Hop0, Hop1. reflexivity.
        -- run_step. unfold emit in *. simpl in *.
           erewrite since_app; [|rewrite Htr0, Htr, <- !app_assoc; reflexivity].
           unfold opens_of in *. rewrite !omap_app, Hop, Hop0. reflexivity.
      * unfold emit in *. simpl in *.
        erewrite since_app; [|rewrite Htr, <- !app_assoc; reflexivity].
        unfold opens_of in *. rewrite !omap_app, Hop. reflexivity.
    + unfold emit in *. simpl in *.
      erewrite since_app; [|rewrite Htr, <- !app_assoc; reflexivity].
      unfold opens_of in *. rewrite !omap_app, Hop. reflexivity.
  - unfold set_light_notifications, notification_writes.
    destruct (truthy (Z.land (color st) 16777215)); simpl; run_step;
      destruct Hf as (Hb & Hrate & Hoe & _); simpl in Hb, Hrate, Htr, Hoe, Hwr;
      rewrite Hb; rewrite ?andb_true_r, ?andb_false_r; simpl.
    + destruct (truthy (g_notification_blink_support s) && truthy (flashMode st)).
      * rewrite Hrate. destruct (truthy (g_notification_blink_rate_support s)).
        -- run_step. destruct Hf as (_ & _ & Hoe0 & _). run_step.
           unfold emit in *. simpl in *.
           erewrite since_app;
             [|rewrite Htr1, Htr0, Htr, <- !app_assoc; reflexivity].
           unfold writes_of in *. rewrite !omap_app, Hwr, Hwr0, Hwr1.
           rewrite Hoe0, !Hoe. simpl. rewrite !filter_cons, filter_nil. simpl.
           destruct (open_error (fs s) NOTIFICATION_FILE),
                    (open_error (fs s) NOTIFICATION_BLINK_RATE_FILE),
                    (open_error (fs s) NOTIFICATION_BLINK_FILE);
             repeat case_decide; try congruence; reflexivity.
        -- run_step. unfold emit in *. simpl in *.
           erewrite since_app; [|rewrite Htr0, Htr, <- !app_assoc; reflexivity].
           unfold writes_of in *. rewrite !omap_app, Hwr, Hwr0.
           rewrite !Hoe. simpl. rewrite !filter_cons, filter_nil. simpl.
           destruct (open_error (fs s) NOTIFICATION_FILE),
                    (open_error (fs s) NOTIFICATION_BLINK_FILE);
             repeat case_decide; try congruence; reflexivity.
      * unfold emit in *. simpl in *.
        erewrite since_app; [|rewrite Htr, <- !app_assoc; reflexivity].
        unfold writes_of in *. rewrite !omap_app, Hwr. simpl.
        rewrite !filter_cons, filter_nil. simpl.
        destruct (open_error (fs s) NOTIFICATION_FILE);
          repeat case_decide; try congruence; reflexivity.
    + unfold emit in *. simpl in *.
      erewrite since_app; [|rewrite Htr, <- !app_assoc; reflexivity].
      unfold writes_of in *. rewrite !omap_app, Hwr. simpl.
      rewrite !filter_cons, filter_nil. simpl.
      destruct (open_error (fs s) NOTIFICATION_FILE);
        repeat case_decide; try congruence; reflexivity.
  - intros data Hin. unfold notification_writes in Hin.
    apply elem_of_cons in Hin as [Hin|Hin]; [inversion Hin|].
    destruct (truthy (g_notification_blink_support s) && _ && _);
      [|now apply elem_of_nil in Hin].
    destruct (truthy (g_notification_blink_rate_support s)); simpl in Hin.
    + apply elem_of_cons in Hin as [Hin|Hin].
      * inversion Hin; subst. apply (length_truncate 10).
      * apply list_elem_of_singleton in Hin. inversion Hin.
    + apply list_elem_of_singleton in Hin. inversion Hin.
  - unfold set_light_notifications, notification_nodes.
    destruct (truthy (Z.land (color st) 16777215)); simpl; run_step;
      destruct Hf as (Hb & Hrate & Hoe & Hh); simpl in Hb, Hrate, Htr, Hoe, Hh;
      rewrite Hb; rewrite ?andb_true_r, ?andb_false_r; simpl.
    + destruct (truthy (g_notification_blink_support s) && truthy (flashMode st)).
      * rewrite Hrate. destruct (truthy (g_notification_blink_rate_support s)).
        -- run_step. destruct Hf as (_ & _ & Hoe0 & Hh0). run_step.
           simpl in *. split.
           ++ intros path [= <-] Hok. apply Hret1. now rewrite Hh0, Hh.
           ++ intros path e [= <-] Hbad. apply Hrete0. now rewrite Hoe0, Hoe.
        -- run_step. simpl in *. split.
           ++ intros path [= <-] Hok. apply Hret1. now rewrite Hh.
           ++ intros path e [= <-] Hbad. apply Hrete0. now rewrite Hoe.
      * simpl in *. split.
        -- intros path [= <-] Hok. now apply Hret0.
        -- intros path e [= <-] Hbad. now apply Hrete.
    + simpl in *. split.
      * intros path [= <-] Hok. now apply Hret0.
      * intros path e [= <-] Hbad. now apply Hrete.
Qed.


Lemma notifications_nodes_and_status_witness :
  let s := init_globals (boot blinker) in
  ((NOTIFICATION_BLINK_RATE_FILE, truncate 10 "100000 100000")
     ∈ notification_writes slow_flash s
   /\ (String.length (truncate 10 "100000 100000") <= 9)%nat)
  /\ (open_error (fs s) NOTIFICATION_FILE = Some ENOENT
      /\ healthy (fs s) NOTIFICATION_BLINK_FILE = true
      /\ fst (set_light_notifications slow_flash s) = 0)
  /\ fst (set_light_notifications black s) = - ENOENT.
Proof.
  intros s.
  destruct (notifications_nodes_and_status slow_flash s) as (_ & _ & Hlen & Hok & _).
  destruct (notifications_nodes_and_status black s) as (_ & _ & _ & _ & Hbad).
  assert (Hin : (NOTIFICATION_BLINK_RATE_FILE, truncate 10 "100000 100000")
                  ∈ notification_writes slow_flash s)
    by (apply list_elem_of_further, list_elem_of_here).
  assert (Hhealthy : healthy (fs s) NOTIFICATION_BLINK_FILE = true)
    by (vm_compute; reflexivity).
  assert (Hmissing : open_error (fs s) NOTIFICATION_FILE = Some ENOENT)
    by (vm_compute; reflexivity).
  split; [split; [exact Hin | exact (Hlen _ Hin)]|].
  split; [split; [exact Hmissing|split; [exact Hhealthy|]]|].
  - exact (Hok NOTIFICATION_BLINK_FILE eq_refl Hhealthy).
  - exact (Hbad NOTIFICATION_FILE ENOENT eq_refl Hmissing).
Defined.

(** *** The backlight, and the preference it loads *)


Lemma write_str_keeps_touchlight path str s :
  g_enable_touchlight (snd (write_str path str s)) = g_enable_touchlight s.
Proof.
  destruct (open_error (fs s) path) as [e|] eqn:Hopen.
  - rewrite (write_str_fails _ _ e) by exact Hopen. simpl.
    now destruct (write_str_already_warned s =? 0).
  - unfold write_str, sys_open. simpl. rewrite Hopen. simpl. unfold sys_write. simpl.
    now destruct (fs s !! path) as [[c oe [we|]]|].
Qed.

Lemma write_int_keeps_touchlight path value s :
  g_enable_touchlight (snd (write_int path value s)) = g_enable_touchlight s.
Proof. now destruct (write_int_summary path value s) as (d & _ & _ & _ & _ & Hg). Qed.

Lemma backlight_loads_touchlight st s :
  g_enable_touchlight (snd (set_light_backlight st s))
  = if touchlight_disabled (fs s) then 0 else 1.
Proof.
  unfold set_light_backlight.
  destruct (load_settings_frame s) as (d & _ & _ & _ & _ & _ & _ & _ & Hg).
  remember (emit MutexLock (emit _ (load_settings s))) as s1 eqn:Hs1.
  assert (Hg1 : g_enable_touchlight s1 = g_enable_touchlight (load_settings s))
    by (subst s1; reflexivity).
  clear Hs1.
  pose proof (write_int_keeps_touchlight LCD_FILE (rgb_to_brightness st) s1) as Hw.
  destruct (write_int LCD_FILE (rgb_to_brightness st) s1) as [res s2].
  simpl in *. congruence.
Qed.

Lemma other_lights_keep_touchlight c s :
  is_backlight c = false ->
  g_enable_touchlight (snd (set_light c s)) = g_enable_touchlight s.
Proof.
  destruct c as [st|st|st|st|st]; simpl; intros Hc; try discriminate Hc;
    try reflexivity.
  - unfold set_light_buttons.
    destruct ((g_enable_touchlight _ =? -1) || (0 <? g_enable_touchlight _));
      [|reflexivity].
    match goal with |- context [write_int ?p ?v ?x] =>
      pose proof (write_int_keeps_touchlight p v x) as Hw;
      destruct (write_int p v x) as [? ?] end.
    simpl in *. exact Hw.
  - unfold set_light_notifications.
    match goal with |- context [write_int ?p ?v ?x] =>
      pose proof (write_int_keeps_touchlight p v x) as Hw;
      destruct (write_int p v x) as [? s1] end.
    simpl in Hw.
    destruct (truthy (g_notification_blink_support _) && _ && _); [|exact Hw].
    destruct (truthy (g_notification_blink_rate_support _)).
    + match goal with |- context [write_str ?p ?v ?x] =>
        pose proof (write_str_keeps_touchlight p v x) as Hw2;
        destruct (write_str p v x) as [? s2] end.
      match goal with |- context [write_int ?p ?v ?x] =>
        pose proof (write_int_keeps_touchlight p v x) as Hw3;
        destruct (write_int p v x) as [? s3] end.
      simpl in *. congruence.
    + match goal with |- context [write_int ?p ?v ?x] =>
        pose proof (write_int_keeps_touchlight p v x) as Hw3;
        destruct (write_int p v x) as [? s3] end.
      simpl in *. congruence.
Qed.

Lemma buttons_opens st s :
  opens_of (since s (snd (set_light_buttons st s))) =
    if (g_enable_touchlight s =? -1) || (0 <? g_enable_touchlight s)
    then [BUTTONS_FILE] else [].
Proof.
  unfold set_light_buttons. simpl.
  destruct ((g_enable_touchlight s =? -1) || (0 <? g_enable_touchlight s)).
  - match goal with |- context [write_int ?p ?v ?x] =>
      destruct (write_int_summary p v x) as (d & Htr & Hop & _);
      destruct (write_int p v x) as [? ?] end.
    unfold emit in *. simpl in *.
    erewrite since_app; [|rewrite Htr, <- !app_assoc; reflexivity].
    unfold opens_of in *. rewrite !omap_app, Hop. reflexivity.
  - unfold emit. simpl.
    erewrite since_app; [|rewrite <- !app_assoc; reflexivity]. reflexivity.
Qed.

(** X7.  The button light follows the preference as the last backlight
    call found it, not as it is: after a [set_light_backlight], and any
    number of calls to the other lights, a [set_light_buttons] opens the
    button node exactly when the preference file did not disable it at
    the time of that backlight call, whatever the files hold by now. *)
Theorem buttons_follow_last_backlight st1 st2 calls files' s
  (Hothers : forallb (fun c => negb (is_backlight c)) calls = true) :
  let s1 := exec calls (snd (set_light_backlight st1 s)) in
  let s2 := set_fs files' s1 in
  opens_of (since s2 (snd (set_light_buttons st2 s2))) =
    if touchlight_disabled (fs s) then [] else [BUTTONS_FILE].
Proof.
  cbv zeta. rewrite buttons_opens.
  assert (Hg : forall s0, g_enable_touchlight (exec calls s0) = g_enable_touchlight s0).
  { clear s. induction calls as [|c calls IH]; intros s0; simpl; [reflexivity|].
    simpl in Hothers. apply andb_true_iff in Hothers as [Hc Hrest].
    rewrite (IH Hrest). apply other_lights_keep_touchlight.
    now apply negb_true_iff in Hc. }
  change (g_enable_touchlight (set_fs files' ?x)) with (g_enable_touchlight x).
  rewrite Hg, backlight_loads_touchlight.
  now destruct (touchlight_disabled (fs s)).
Qed.

Lemma buttons_follow_last_backlight_witness :
  let s := boot (handset (Some "1")) in
  let s1 := exec [Notifications white; Buttons black]
              (snd (set_light_backlight white s)) in
  let s2 := set_fs (handset None) s1 in
  touchlight_disabled (fs s) = true
  /\ touchlight_disabled (fs s2) = false
  /\ opens_of (since s2 (snd (set_light_buttons white s2))) = [].
Proof.
  intros s s1 s2.
  split; [vm_compute; reflexivity|]. split; [vm_compute; reflexivity|].
  exact (buttons_follow_last_backlight white white [Notifications white; Buttons black]
           (handset None) s eq_refl).
Defined.


(** *** Opening a light *)


(** *** Joined paths *)

Lemma truncate_fits size str :
  (String.length str <= size - 1)%nat -> truncate size str = str.
Proof.
  unfold truncate. generalize (size - 1)%nat as m. intros m. revert str.
  induction m as [|m IH]; intros [|c str]; simpl; intros Hlen;
    try reflexivity; try lia.
  f_equal. apply IH. lia.
Qed.

(** X9.  [write_df_int] and [write_df_str] write to [dir/file] when that
    path has fewer than [PATH_MAX] characters; a longer path is cut
    without notice, so that the node opened never has more than
    [PATH_MAX - 1] characters. *)
Theorem write_df_joins_paths dir file s :
  (forall value str,
      (String.length (dir +:+ "/" +:+ file) < PATH_MAX)%nat ->
      write_df_int dir file value s = write_int (dir +:+ "/" +:+ file) value s
      /\ write_df_str dir file str s = write_str (dir +:+ "/" +:+ file) str s)
  /\ (forall value path,
        path ∈ opens_of (since s (snd (write_df_int dir file value s))) ->
        (String.length path <= PATH_MAX - 1)%nat)
  /\ (forall str path,
        path ∈ opens_of (since s (snd (write_df_str dir file str s))) ->
        (String.length path <= PATH_MAX - 1)%nat).
Proof.
  split; [|split].
  - intros value str Hfit. unfold write_df_int, write_df_str.
    rewrite truncate_fits by lia. auto.
  - intros value path Hin. unfold write_df_int in Hin.
    destruct (write_int_events (truncate PATH_MAX (dir +:+ "/" +:+ file)) value s)
      as (d & Htr & _ & Hop & _).
    rewrite (since_app _ _ _ Htr), Hop in Hin.
    apply list_elem_of_singleton in Hin as ->. apply length_truncate.
  - intros str path Hin. unfold write_df_str in Hin.
    destruct (write_str_events (truncate PATH_MAX (dir +:+ "/" +:+ file)) str s)
      as (d & Htr & _ & Hop & _).
    rewrite (since_app _ _ _ Htr), Hop in Hin.
    apply list_elem_of_singleton in Hin as ->. apply length_truncate.
Qed.

Lemma write_df_joins_paths_witness :
  let s := boot (handset None) in
  write_df_int "/sys/class/leds/lcd-backlight" "brightness" 7 s = write_int LCD_FILE 7 s
  /\ (String.length LCD_FILE <= PATH_MAX - 1)%nat.
Proof.
  intros s.
  destruct (write_df_joins_paths "/sys/class/leds/lcd-backlight" "brightness" s)
    as (Hjoin & Hlen & _).
  assert (Hfit : (String.length ("/sys/class/leds/lcd-backlight" +:+ "/" +:+ "brightness")
                  < PATH_MAX)%nat) by (vm_compute; lia).
  split; [exact (proj1 (Hjoin 7 "" Hfit))|].
  apply (Hlen 7).
  assert (opens_of (since s (snd (write_df_int "/sys/class/leds/lcd-backlight"
                                    "brightness" 7 s))) = [LCD_FILE]) as ->
    by (vm_compute; reflexivity).
  apply list_elem_of_here.
Defined.

End LightsFacts.

(** ** The sensor multiplexer *)

Module SensorsFacts.

Import Sensors.

Section Facts.

Context {W event : Type}.
Variable ids : sensors_h.
Variable mSensors : nat -> SensorBase.t W event.
Variable os : Kernel W.

(** *** Routing *)

Lemma declared_distinct :
  NoDup (declared ids) ->
  ID_P ids <> ID_A ids /\ ID_P ids <> ID_M ids /\ ID_P ids <> ID_O ids
  /\ ID_P ids <> ID_SM ids
  /\ ID_L ids <> ID_A ids /\ ID_L ids <> ID_M ids /\ ID_L ids <> ID_O ids
  /\ ID_L ids <> ID_SM ids /\ ID_L ids <> ID_P ids
  /\ ID_GY ids <> ID_A ids /\ ID_GY ids <> ID_M ids /\ ID_GY ids <> ID_O ids
  /\ ID_GY ids <> ID_SM ids /\ ID_GY ids <> ID_P ids /\ ID_GY ids <> ID_L ids.
Proof.
  unfold declared. rewrite !NoDup_cons, !not_elem_of_cons. intuition congruence.
Qed.

Lemma handleToDriver_akm handle :
  handle = ID_A ids \/ handle = ID_M ids \/ handle = ID_O ids \/ handle = ID_SM ids ->
  handleToDriver ids handle = akm.
Proof.
  intros H. unfold handleToDriver.
  assert ((handle =? ID_A ids) || (handle =? ID_M ids) || (handle =? ID_O ids)
          || (handle =? ID_SM ids) = true) as ->; [|reflexivity].
  rewrite !orb_true_iff, !Z.eqb_eq. tauto.
Qed.

Lemma handleToDriver_not_akm handle :
  handle <> ID_A ids -> handle <> ID_M ids -> handle <> ID_O ids ->
  handle <> ID_SM ids ->
  handleToDriver ids handle =
    if handle =? ID_P ids then proximity
    else if handle =? ID_L ids then light
    else if handle =? ID_GY ids then gyro
    else - EINVAL.
Proof.
  intros HA HM HO HSM. unfold handleToDriver.
  apply Z.eqb_neq in HA, HM, HO, HSM. now rewrite HA, HM, HO, HSM.
Qed.

Lemma handleToDriver_unknown handle :
  handle ∉ declared ids -> handleToDriver ids handle = - EINVAL.
Proof.
  unfold declared. rewrite !not_elem_of_cons.
  intros (HA & HM & HO & HSM & HP & HL & HGY & _).
  rewrite handleToDriver_not_akm by assumption.
  apply Z.eqb_neq in HP, HL, HGY. now rewrite HP, HL, HGY.
Qed.

Lemma handleToDriver_gyro :
  NoDup (declared ids) -> handleToDriver ids (ID_GY ids) = gyro.
Proof.
  intros Hd. apply declared_distinct in Hd.
  rewrite handleToDriver_not_akm by tauto.
  assert ((ID_GY ids =? ID_P ids) = false) as -> by (apply Z.eqb_neq; tauto).
  assert ((ID_GY ids =? ID_L ids) = false) as -> by (apply Z.eqb_neq; tauto).
  now rewrite Z.eqb_refl.
Qed.

(** C2.  The identifiers of the accelerometer, the compass, the
    orientation and the significant-motion sensor route to the akm driver,
    the proximity identifier to proximity, the light identifier to light,
    the gyroscope identifier to gyro.  Any other handle yields [-EINVAL],
    and [activate], [setDelay], [batch] and [flush] then return that value
    and leave the whole machine (drivers, kernel, trace) as it was. *)
Theorem handleToDriver_routes (Hdistinct : NoDup (declared ids)) :
  handleToDriver ids (ID_A ids) = akm
  /\ handleToDriver ids (ID_M ids) = akm
  /\ handleToDriver ids (ID_O ids) = akm
  /\ handleToDriver ids (ID_SM ids) = akm
  /\ handleToDriver ids (ID_P ids) = proximity
  /\ handleToDriver ids (ID_L ids) = light
  /\ handleToDriver ids (ID_GY ids) = gyro
  /\ forall handle,
       handle ∉ declared ids ->
       handleToDriver ids handle = - EINVAL
       /\ forall (m : machine W event) enabled ns flags period latency,
            activate ids mSensors os handle enabled m = (- EINVAL, m)
            /\ setDelay ids mSensors handle ns m = (- EINVAL, m)
            /\ batch ids mSensors handle flags period latency m = (- EINVAL, m)
            /\ flush ids mSensors handle m = (- EINVAL, m).
Proof.
  pose proof (declared_distinct Hdistinct) as Hne.
  repeat split; try (apply handleToDriver_akm; tauto).
  - rewrite handleToDriver_not_akm by tauto. now rewrite Z.eqb_refl.
  - rewrite handleToDriver_not_akm by tauto.
    assert ((ID_L ids =? ID_P ids) = false) as -> by (apply Z.eqb_neq; tauto).
    now rewrite Z.eqb_refl.
  - now apply handleToDriver_gyro.
  - now apply handleToDriver_unknown.
  - unfold activate. now rewrite handleToDriver_unknown.
  - unfold setDelay. now rewrite handleToDriver_unknown.
  - unfold batch. now rewrite handleToDriver_unknown.
  - unfold flush. now rewrite handleToDriver_unknown.
Qed.

(** *** [activate] *)

Lemma since_extends (m m' : machine W event) d :
  trace m' = trace m ++ d -> since m m' = d.
Proof. unfold since. intros ->. apply drop_app_length. Qed.

Ltac destruct_enable :=
  match goal with
  | |- context [SensorBase.enable ?d ?h ?e ?w] =>
      destruct (SensorBase.enable d h e w) as [err w1]
  end.

Ltac show_trace :=
  unfold emit, set_world, set_fds, set_mem; simpl;
  rewrite <- ?app_assoc; simpl; try reflexivity.

(** C4.  For a handle that routes to a driver, [activate] returns what the
    driver's [enable] returned, calls no other driver method, and writes
    to the wake pipe exactly when [enabled] is nonzero and the driver
    returned 0: then one call, of the single byte ['W'], on the write end.
    A failed enable or disable and a successful disable write nothing; an
    unknown handle reaches neither the driver nor the pipe. *)
Theorem activate_wakes_on_enable handle enabled (m : machine W event) :
  let r := activate ids mSensors os handle enabled m in
  let index := handleToDriver ids handle in
  if index <? 0 then r = (index, m)
  else
    let w0 := if (index =? gyro) && (enabled =? 0)
              then k_usleep os (200 * 1000) (world m) else world m in
    let err := fst (SensorBase.enable (mSensors (Z.to_nat index)) handle enabled w0) in
    fst r = err
    /\ omap pipe_write (since m (snd r)) =
         (if truthy enabled && (err =? 0) then [(mWritePipeFd m, [WAKE_MESSAGE])]
          else [])
    /\ filter (fun a => driver_call a = true) (since m (snd r)) =
         [DrvEnable (Z.to_nat index) handle enabled err].
Proof.
  cbv zeta. unfold activate.
  destruct (handleToDriver ids handle <? 0); [reflexivity|].
  set (index := handleToDriver ids handle).
  destruct ((index =? gyro) && (enabled =? 0)); simpl.
  - destruct_enable. simpl.
    replace (negb (truthy err)) with (err =? 0)
      by (unfold truthy; now rewrite negb_involutive).
    destruct (truthy enabled && (err =? 0)).
    + destruct (k_write os (mWritePipeFd m) [WAKE_MESSAGE] w1) as [result w2].
      destruct (result <? 0); (split; [reflexivity|]);
        (erewrite since_extends; [|show_trace]); split; reflexivity.
    + split; [reflexivity|].
      (erewrite since_extends; [|show_trace]); split; reflexivity.
  - destruct_enable. simpl.
    replace (negb (truthy err)) with (err =? 0)
      by (unfold truthy; now rewrite negb_involutive).
    destruct (truthy enabled && (err =? 0)).
    + destruct (k_write os (mWritePipeFd m) [WAKE_MESSAGE] w1) as [result w2].
      destruct (result <? 0); (split; [reflexivity|]);
        (erewrite since_extends; [|show_trace]); split; reflexivity.
    + split; [reflexivity|].
      (erewrite since_extends; [|show_trace]); split; reflexivity.
Qed.

(** C5.  [activate] sleeps exactly when the handle routes to the
    gyroscope driver and [enabled] is 0, and then for 200 * 1000
    microseconds; disabling the gyroscope does nothing but sleep and then
    call the driver's [enable], which runs in the world as the sleep left
    it. *)
Theorem gyro_disable_sleeps_first (Hdistinct : NoDup (declared ids)) :
  (forall handle enabled (m : machine W event),
      omap slept (since m (snd (activate ids mSensors os handle enabled m))) =
        if (handleToDriver ids handle =? gyro) && (enabled =? 0)
        then [200 * 1000] else [])
  /\ (forall (m : machine W event),
        let r := activate ids mSensors os (ID_GY ids) 0 m in
        let after_sleep := k_usleep os 200000 (world m) in
        let done := SensorBase.enable (mSensors 3%nat) (ID_GY ids) 0 after_sleep in
        since m (snd r) = [Usleep 200000; DrvEnable 3 (ID_GY ids) 0 (fst done)]
        /\ world (snd r) = snd done
        /\ fst r = fst done).
Proof.
  split.
  - intros handle enabled m. unfold activate.
    destruct (Z.ltb_spec (handleToDriver ids handle) 0) as [Hneg | Hpos].
    + assert ((handleToDriver ids handle =? gyro) = false) as ->
        by (apply Z.eqb_neq; unfold gyro; lia).
      simpl. unfold since. now rewrite drop_all.
    + set (index := handleToDriver ids handle).
      destruct ((index =? gyro) && (enabled =? 0)); simpl.
      * destruct_enable. simpl.
        destruct (truthy enabled && negb (truthy err)).
        -- destruct (k_write os (mWritePipeFd m) [WAKE_MESSAGE] w1) as [result w2].
           destruct (result <? 0);
             (erewrite since_extends; [|show_trace]); reflexivity.
        -- (erewrite since_extends; [|show_trace]); reflexivity.
      * destruct_enable. simpl.
        destruct (truthy enabled && negb (truthy err)).
        -- destruct (k_write os (mWritePipeFd m) [WAKE_MESSAGE] w1) as [result w2].
           destruct (result <? 0);
             (erewrite since_extends; [|show_trace]); reflexivity.
        -- (erewrite since_extends; [|show_trace]); reflexivity.
  - intros m. cbv zeta. unfold activate.
    rewrite (handleToDriver_gyro Hdistinct).
    change (gyro <? 0) with false.
    change ((gyro =? gyro) && (0 =? 0)) with true. cbv iota.
    change (200 * 1000) with 200000. change (Z.to_nat gyro) with 3%nat.
    change (world (emit (Usleep 200000) (set_world (k_usleep os 200000 (world m)) m)))
      with (k_usleep os 200000 (world m)).
    destruct (SensorBase.enable (mSensors 3%nat) (ID_GY ids) 0
                (k_usleep os 200000 (world m))) as [err w1]. simpl.
    (erewrite since_extends; [|show_trace]). auto.
Qed.


(** *** Traces of one [pollEvents] call *)

Lemma nbEvents_after_snoc d a :
  nbEvents_after (d ++ [a]) =
    match a with
    | DrvRead _ _ _ nb => int32 (nbEvents_after d + nb)
    | _ => nbEvents_after d
    end.
Proof. unfold nbEvents_after. now rewrite fold_left_app. Qed.

Lemma nbEvents_after_quiet d extra :
  Forall quiet extra -> nbEvents_after (d ++ extra) = nbEvents_after d.
Proof.
  induction extra as [|a extra IH] using rev_ind; intros Hq.
  - now rewrite app_nil_r.
  - apply Forall_app in Hq as [Hq Ha]. apply Forall_cons_1 in Ha as [[_ Ha] _].
    rewrite app_assoc, nbEvents_after_snoc, IH by assumption.
    destruct a; try reflexivity. discriminate Ha.
Qed.

Lemma stored_app d1 d2 : stored (d1 ++ d2) = stored d1 + stored d2.
Proof.
  unfold stored. induction d1 as [|a d1 IH]; simpl; [reflexivity|].
  rewrite IH. lia.
Qed.

Lemma stored_nonneg d : reads_nonneg d -> 0 <= stored d.
Proof.
  unfold reads_nonneg, stored. induction 1 as [|a d Ha _ IH]; simpl; lia.
Qed.

Lemma stored_quiet extra : Forall quiet extra -> stored extra = 0.
Proof.
  unfold stored. induction 1 as [|a d [_ Ha] _ IH]; simpl; [reflexivity|].
  rewrite IH. destruct a; try reflexivity. discriminate Ha.
Qed.

Lemma reads_nonneg_quiet extra : Forall quiet extra -> reads_nonneg extra.
Proof.
  unfold reads_nonneg. intros Hq. eapply Forall_impl; [exact Hq|].
  intros a [_ Ha]. destruct a; simpl; try lia. discriminate Ha.
Qed.

(** Without overflow the counter of the code is the plain sum. *)
Lemma nbEvents_after_stored d :
  reads_nonneg d -> stored d <= INT_MAX -> nbEvents_after d = stored d.
Proof.
  induction d as [|a d IH] using rev_ind; intros Hnn Hmax; [reflexivity|].
  apply Forall_app in Hnn as [Hd Ha]. apply Forall_cons_1 in Ha as [Ha _].
  rewrite stored_app in *. pose proof (stored_nonneg d Hd) as H0.
  assert (Hs : stored [a] = read_count a) by (unfold stored; simpl; lia).
  rewrite Hs in *. rewrite nbEvents_after_snoc, IH by (assumption || lia).
  destruct a; simpl in *; try lia.
  apply int32_small. unfold INT_MAX in *. lia.
Qed.

Lemma waits_follow_nil : waits_follow [].
Proof. intros pre t r post H. now destruct pre. Qed.

Lemma snoc_split (pre post d : list action) (a x : action) :
  d ++ [a] = pre ++ x :: post ->
  (post = [] /\ d = pre /\ a = x)
  \/ exists post', post = post' ++ [a] /\ d = pre ++ x :: post'.
Proof.
  destruct post as [|y post _] using rev_ind; intros H.
  - left. apply app_inj_tail in H as [-> ->]. auto.
  - right. exists post.
    change (d ++ [a] = pre ++ (x :: post) ++ [y]) in H.
    rewrite (app_assoc pre) in H. apply app_inj_tail in H as [-> ->]. auto.
Qed.

Lemma waits_follow_snoc d a :
  waits_follow d ->
  (forall timeout ready, a = SysPoll timeout ready ->
     timeout = if truthy (nbEvents_after d) then 0 else -1) ->
  waits_follow (d ++ [a]).
Proof.
  intros Hd Ha pre t r post Heq.
  apply snoc_split in Heq as [(_ & -> & ->) | (post' & _ & ->)].
  - now apply (Ha t r).
  - now apply (Hd pre t r post').
Qed.

Lemma waits_follow_quiet d extra :
  waits_follow d -> Forall quiet extra -> waits_follow (d ++ extra).
Proof.
  intros Hd. induction extra as [|a extra IH] using rev_ind; intros Hq.
  - now rewrite app_nil_r.
  - apply Forall_app in Hq as [Hq Ha]. apply Forall_cons_1 in Ha as [[Ha _] _].
    rewrite app_assoc. apply waits_follow_snoc; [now apply IH|].
    intros t r ->. discriminate Ha.
Qed.


(** *** The steps of the loop *)

Lemma drain_one_spec i l (m : machine W event) :
  drain_one mSensors i l m =
    if truthy (Z.land (revents_at i (mPollFds m)) POLLIN)
       || SensorBase.hasPendingEvents (mSensors i) (world m)
    then
      let rd := SensorBase.readEvents (mSensors i) (count l) (world m) in
      ({| count := int32 (count l - fst (fst rd));
          nbEvents := int32 (nbEvents l + fst (fst rd));
          data := data l + fst (fst rd);
          n := n l |},
       {| mPollFds := if fst (fst rd) <? count l
                      then alter (set_revents 0) i (mPollFds m) else mPollFds m;
          mWritePipeFd := mWritePipeFd m;
          world := snd rd;
          mem := store (data l) (snd (fst rd)) (mem m);
          trace := trace m ++ [DrvRead i (data l) (count l) (fst (fst rd))] |})
    else (l, m).
Proof.
  unfold drain_one.
  destruct (truthy _ || _); [|reflexivity].
  destruct (SensorBase.readEvents (mSensors i) (count l) (world m)) as [[nb evs] w].
  simpl. destruct (nb <? count l); reflexivity.
Qed.

Lemma wait_idle l (m : machine W event) :
  truthy (count l) = false -> wait os l m = (inr l, m).
Proof. unfold wait. now intros ->. Qed.

Lemma wait_polls l (m : machine W event) :
  truthy (count l) = true ->
  let timeout := if truthy (nbEvents l) then 0 else -1 in
  let p := k_poll os (mPollFds m) (Z.of_nat numFds) timeout (world m) in
  exists extra m',
    ((fst (fst p) < 0
      /\ wait os l m = (inl (- k_errno os (snd p)), m')
      /\ world m' = snd p
      /\ extra = [ALOGE "poll() failed (%s)"])
     \/ (0 <= fst (fst p)
         /\ wait os l m =
              (inr {| count := count l; nbEvents := nbEvents l; data := data l;
                      n := fst (fst p) |}, m')))
    /\ trace m' = trace m ++ SysPoll timeout (fst (fst p)) :: extra
    /\ Forall quiet extra
    /\ mem m' = mem m.
Proof.
  intros Hcount. cbv zeta. unfold wait. rewrite Hcount.
  destruct (k_poll os (mPollFds m) (Z.of_nat numFds)
              (if truthy (nbEvents l) then 0 else -1) (world m)) as [[ready rv] w].
  simpl. destruct (Z.ltb_spec ready 0) as [Hneg | Hpos].
  - eexists _, _. split; [left; repeat split; (assumption || reflexivity)|].
    split; [show_trace|]. split; [repeat constructor|reflexivity].
  - destruct (truthy (Z.land _ POLLIN)).
    + destruct (k_read os _ 1 w) as [[result msg] w'].
      destruct (result <? 0), (negb (msg =? WAKE_MESSAGE));
        (eexists _, _; split; [right; split; [assumption|reflexivity]|]);
        (split; [show_trace|]); (split; [repeat constructor|reflexivity]).
    + eexists _, _. split; [right; split; [assumption|reflexivity]|].
      split; [show_trace|]. split; [constructor|reflexivity].
Qed.

Lemma drain_inv (I : locals -> machine W event -> Prop) :
  (forall i l m, I l m -> truthy (count l) = true ->
     I (fst (drain_one mSensors i l m)) (snd (drain_one mSensors i l m))) ->
  forall drivers l m,
    I l m -> I (fst (drain mSensors drivers l m)) (snd (drain mSensors drivers l m)).
Proof.
  intros Hstep drivers. induction drivers as [|i drivers IH]; intros l m HI; simpl.
  - exact HI.
  - destruct (truthy (count l)) eqn:Hcount; [|exact HI].
    specialize (Hstep i l m HI Hcount).
    destruct (drain_one mSensors i l m) as [l1 m1]. now apply IH.
Qed.

Lemma pollEvents_loop_S fuel l (m : machine W event) :
  pollEvents_loop mSensors os (S fuel) l m =
    let '(l, m) := drain mSensors (seq 0 numSensorDrivers) l m in
    match wait os l m with
    | (inl r, m) => (Some r, m)
    | (inr l, m) =>
        if truthy (n l) && truthy (count l) then pollEvents_loop mSensors os fuel l m
        else (Some (nbEvents l), m)
    end.
Proof. reflexivity. Qed.

(** The proof rule of the [do ... while] loop: what each drain step and
    each wait preserve holds of every result, returned or not yet. *)
Lemma pollEvents_loop_inv (I : locals -> machine W event -> Prop)
  (Q : option Z -> machine W event -> Prop) :
  (forall i l m, I l m -> truthy (count l) = true ->
     I (fst (drain_one mSensors i l m)) (snd (drain_one mSensors i l m))) ->
  (forall l m, I l m ->
     match wait os l m with
     | (inl r, m') => Q (Some r) m'
     | (inr l', m') => I l' m'
     end) ->
  (forall l m, I l m -> Q (Some (nbEvents l)) m) ->
  (forall l m, I l m -> Q None m) ->
  forall fuel l m,
    I l m ->
    Q (fst (pollEvents_loop mSensors os fuel l m))
      (snd (pollEvents_loop mSensors os fuel l m)).
Proof.
  intros Hdrain Hwait Hexit Hstop fuel.
  induction fuel as [|fuel IH]; intros l m HI; [now apply (Hstop l)|].
  rewrite pollEvents_loop_S.
  pose proof (drain_inv I Hdrain (seq 0 numSensorDrivers) l m HI) as HI1.
  destruct (drain mSensors (seq 0 numSensorDrivers) l m) as [l1 m1].
  simpl in HI1. specialize (Hwait l1 m1 HI1).
  destruct (wait os l1 m1) as [[r0 | l2] m2].
  - exact Hwait.
  - destruct (truthy (n l2) && truthy (count l2)).
    + now apply IH.
    + now apply Hexit.
Qed.

(** More fuel does not change what a call returned. *)
Lemma pollEvents_loop_fuel fuel l (m : machine W event) r :
  fst (pollEvents_loop mSensors os fuel l m) = Some r ->
  pollEvents_loop mSensors os (S fuel) l m = pollEvents_loop mSensors os fuel l m.
Proof.
  revert l m. induction fuel as [|fuel IH]; intros l m Hrun; [discriminate Hrun|].
  rewrite pollEvents_loop_S in Hrun. rewrite (pollEvents_loop_S (S fuel)).
  rewrite (pollEvents_loop_S fuel).
  destruct (drain mSensors (seq 0 numSensorDrivers) l m) as [l1 m1].
  destruct (wait os l1 m1) as [[r0 | l2] m2]; [reflexivity|].
  destruct (truthy (n l2) && truthy (count l2)); [|reflexivity].
  now apply IH.
Qed.

(** With no capacity the call returns 0 at once and touches nothing. *)
Lemma pollEvents_zero_capacity fuel data (m : machine W event) :
  pollEvents mSensors os (S fuel) data 0 m = (Some 0, m).
Proof. reflexivity. Qed.

Lemma store_frame evs addr (cells : gmap Z event) k :
  k < addr \/ addr + Z.of_nat (length evs) <= k ->
  store addr evs cells !! k = cells !! k.
Proof.
  revert addr cells. induction evs as [|e evs IH]; intros addr cells Hk; simpl.
  - reflexivity.
  - rewrite IH by (simpl in Hk; lia).
    apply lookup_insert_ne. simpl in Hk. lia.
Qed.


(** *** Capacity *)

Lemma stored_cons a d : stored (a :: d) = read_count a + stored d.
Proof. reflexivity. Qed.

Lemma pollEvents_loop_bounded (count0 data0 : Z) (m0 : machine W event) :
  read_contract mSensors ->
  0 <= count0 <= INT_MAX ->
  forall fuel l m,
    (0 <= count l /\ 0 <= nbEvents l /\ nbEvents l + count l = count0
     /\ data l = data0 + nbEvents l
     /\ (forall k, k < data0 \/ data0 + count0 <= k -> mem m !! k = mem m0 !! k)
     /\ exists d, trace m = trace m0 ++ d /\ stored d = nbEvents l /\ reads_nonneg d) ->
    let res := pollEvents_loop mSensors os fuel l m in
    (forall r, fst res = Some r -> poll_contract os -> r <= count0)
    /\ (forall k, k < data0 \/ data0 + count0 <= k -> mem (snd res) !! k = mem m0 !! k)
    /\ exists d, trace (snd res) = trace m0 ++ d /\ 0 <= stored d <= count0
                 /\ reads_nonneg d.
Proof.
  intros Hreads Hcount0.
  apply (pollEvents_loop_inv
           (fun l m =>
              0 <= count l /\ 0 <= nbEvents l /\ nbEvents l + count l = count0
              /\ data l = data0 + nbEvents l
              /\ (forall k, k < data0 \/ data0 + count0 <= k -> mem m !! k = mem m0 !! k)
              /\ exists d, trace m = trace m0 ++ d /\ stored d = nbEvents l
                           /\ reads_nonneg d)
           (fun o m' =>
              (forall r, o = Some r -> poll_contract os -> r <= count0)
              /\ (forall k, k < data0 \/ data0 + count0 <= k -> mem m' !! k = mem m0 !! k)
              /\ exists d, trace m' = trace m0 ++ d /\ 0 <= stored d <= count0
                           /\ reads_nonneg d)).
  - (* a drain step *)
    intros i l m (Hc & Hn & Hsum & Hdata & Hframe & d & Htr & Hst & Hnn) Htruthy.
    rewrite drain_one_spec. destruct (truthy _ || _); [|simpl; eauto 10].
    apply truthy_true in Htruthy.
    destruct (Hreads i (count l) (world m)) as [Hnb Hlen]; [lia|].
    destruct (SensorBase.readEvents (mSensors i) (count l) (world m)) as [[nb evs] w].
    simpl in *. unfold INT_MAX in *.
    rewrite !int32_small by (unfold INT_MAX; lia).
    repeat split; try lia.
    + intros k Hk. rewrite store_frame by lia. now apply Hframe.
    + exists (d ++ [DrvRead i (data l) (count l) nb]).
      rewrite Htr, <- app_assoc, stored_app, Hst.
      split; [reflexivity|]. split; [unfold stored; simpl; lia|].
      apply Forall_app. split; [exact Hnn|]. repeat constructor. simpl. lia.
  - (* a wait *)
    intros l m (Hc & Hn & Hsum & Hdata & Hframe & d & Htr & Hst & Hnn).
    destruct (truthy (count l)) eqn:Htruthy.
    + destruct (wait_polls l m Htruthy) as (extra & m' & Hres & Htr' & Hq & Hmem).
      assert (Hd' : exists d', trace m' = trace m0 ++ d' /\ stored d' = nbEvents l
                               /\ reads_nonneg d').
      { eexists. rewrite Htr', Htr, <- app_assoc. split; [reflexivity|].
        rewrite stored_app, stored_cons, (stored_quiet _ Hq). simpl.
        split; [lia|]. apply Forall_app. split; [exact Hnn|].
        constructor; [simpl; lia|]. now apply reads_nonneg_quiet. }
      destruct Hres as [(Hneg & -> & Hw & _) | (Hpos & ->)].
      * split.
        { intros r0 [= <-] Hpoll.
          specialize (Hpoll (mPollFds m) (Z.of_nat numFds)
                        (if truthy (nbEvents l) then 0 else -1) (world m) Hneg).
          lia. }
        split; [now rewrite Hmem|].
        destruct Hd' as (d' & ? & ? & ?). exists d'. repeat split; auto; lia.
      * simpl. rewrite Hmem. auto 10.
    + rewrite (wait_idle _ _ Htruthy). eauto 10.
  - (* leaving the loop *)
    intros l m (Hc & Hn & Hsum & Hdata & Hframe & d & Htr & Hst & Hnn).
    split; [intros r0 [= <-] _; lia|]. split; [exact Hframe|].
    exists d. repeat split; auto; lia.
  - (* not returned yet *)
    intros l m (Hc & Hn & Hsum & Hdata & Hframe & d & Htr & Hst & Hnn).
    split; [intros r0 [=]|]. split; [exact Hframe|].
    exists d. repeat split; auto; lia.
Qed.

(** C1.  With drivers that return between 0 and [n] events when asked for
    [n], and a kernel that leaves a positive [errno] when [poll] fails, a
    call of [pollEvents] with a capacity [count >= 0] never returns more
    than [count]; and at every point of the call, returned or not, every
    cell outside the [count] cells that start at [data] is as it was, and
    the driver reads made so far returned at most [count] events in
    all. *)
Theorem pollEvents_within_capacity
  (Hreads : read_contract mSensors) (Hpoll : poll_contract os)
  fuel data count (m : machine W event)
  (Hcount : 0 <= count <= INT_MAX) :
  let res := pollEvents mSensors os fuel data count m in
  (forall r, fst res = Some r -> r <= count)
  /\ (forall k, k < data \/ data + count <= k -> mem (snd res) !! k = mem m !! k)
  /\ trace (snd res) = trace m ++ since m (snd res)
  /\ 0 <= stored (since m (snd res)) <= count
  /\ reads_nonneg (since m (snd res)).
Proof.
  cbv zeta. unfold pollEvents.
  destruct (pollEvents_loop_bounded count data m Hreads Hcount fuel
              {| count := count; nbEvents := 0; data := data; n := 0 |} m)
    as (Hr & Hframe & d & Htr & Hst & Hnn).
  - simpl. split; [lia|]. split; [lia|]. split; [lia|]. split; [lia|].
    split; [reflexivity|]. exists []. rewrite app_nil_r.
    split; [reflexivity|]. split; [reflexivity|constructor].
  - rewrite (since_extends _ _ _ Htr). split; [|auto].
    intros r Hret. now apply Hr.
Qed.

(** *** Timeouts *)

Lemma pollEvents_loop_waits (m0 : machine W event) :
  forall fuel l m,
    (exists d, trace m = trace m0 ++ d /\ waits_follow d
               /\ nbEvents l = nbEvents_after d) ->
    exists d, trace (snd (pollEvents_loop mSensors os fuel l m)) = trace m0 ++ d
              /\ waits_follow d.
Proof.
  apply (pollEvents_loop_inv
           (fun l m => exists d, trace m = trace m0 ++ d /\ waits_follow d
                                 /\ nbEvents l = nbEvents_after d)
           (fun _ m' => exists d, trace m' = trace m0 ++ d /\ waits_follow d)).
  - intros i l m (d & Htr & Hw & Hn) _.
    rewrite drain_one_spec. destruct (truthy _ || _); [|simpl; eauto].
    simpl. eexists. rewrite Htr, <- app_assoc. split; [reflexivity|]. split.
    + apply waits_follow_snoc; [exact Hw|]. intros t r H. discriminate H.
    + now rewrite nbEvents_after_snoc, Hn.
  - intros l m (d & Htr & Hw & Hn).
    destruct (truthy (count l)) eqn:Htruthy.
    + destruct (wait_polls l m Htruthy) as (extra & m' & Hres & Htr' & Hq & _).
      assert (Hd' : exists d', trace m' = trace m0 ++ d' /\ waits_follow d'
                               /\ nbEvents l = nbEvents_after d').
      { exists ((d ++ [SysPoll (if truthy (nbEvents l) then 0 else -1)
                         (fst (fst (k_poll os (mPollFds m) (Z.of_nat numFds)
                                      (if truthy (nbEvents l) then 0 else -1)
                                      (world m))))]) ++ extra).
        rewrite Htr', Htr, <- !app_assoc. split; [reflexivity|].
        rewrite !app_assoc. split.
        - apply waits_follow_quiet; [|exact Hq].
          apply waits_follow_snoc; [exact Hw|].
          intros t r H. inversion H; subst. now rewrite Hn.
        - now rewrite (nbEvents_after_quiet _ _ Hq), nbEvents_after_snoc. }
      destruct Hres as [(_ & -> & _) | (_ & ->)].
      * destruct Hd' as (d' & ? & ? & _). eauto.
      * exact Hd'.
    + rewrite (wait_idle _ _ Htruthy). eauto.
  - intros l m (d & Htr & Hw & _). eauto.
  - intros l m (d & Htr & Hw & _). eauto.
Qed.

(** C3.  At every point of a [pollEvents] call, returned or not, every
    wait made so far had the timeout that [nbEvents] selected when it was
    made: 0 (do not block) when nonzero, -1 (block until something is
    ready) when 0.  With drivers that return numbers of events, [nbEvents]
    never decreases, so once it is positive every later wait of the call
    has timeout 0. *)
Theorem waits_block_only_without_events
  fuel data count (m : machine W event) :
  let m' := snd (pollEvents mSensors os fuel data count m) in
  trace m' = trace m ++ since m m'
  /\ (forall pre timeout ready post,
        since m m' = pre ++ SysPoll timeout ready :: post ->
        timeout = if truthy (nbEvents_after pre) then 0 else -1)
  /\ (read_contract mSensors -> 0 <= count <= INT_MAX ->
      forall pre mid timeout ready post,
        since m m' = pre ++ mid ++ SysPoll timeout ready :: post ->
        0 < nbEvents_after pre ->
        timeout = 0).
Proof.
  cbv zeta. unfold pollEvents.
  set (l0 := {| count := count; nbEvents := 0; data := data; n := 0 |}).
  destruct (pollEvents_loop_waits m fuel l0 m) as (d & Htr & Hw);
    [exists []; rewrite app_nil_r; split; [reflexivity|];
     split; [apply waits_follow_nil|reflexivity]|].
  rewrite (since_extends _ _ _ Htr).
  split; [exact Htr|]. split; [exact Hw|].
  intros Hreads Hcount pre mid timeout ready post Hsplit Hpos.
  destruct (pollEvents_loop_bounded count data m Hreads Hcount fuel l0 m)
    as (_ & _ & d' & Htr' & Hst & Hnn).
  { simpl. split; [lia|]. split; [lia|]. split; [lia|]. split; [lia|].
    split; [reflexivity|]. exists []. rewrite app_nil_r.
    split; [reflexivity|]. split; [reflexivity|constructor]. }
  assert (d' = d) as -> by (rewrite Htr in Htr'; now apply app_inv_head in Htr').
  rewrite app_assoc in Hsplit.
  rewrite (Hw _ _ _ _ Hsplit).
  subst d. unfold reads_nonneg in Hnn.
  apply Forall_app in Hnn as [Hnn_pm Hnn_rest].
  pose proof (stored_nonneg _ Hnn_rest) as Hrest.
  pose proof Hnn_pm as Hnn_pm'. apply Forall_app in Hnn_pm' as [Hnn_pre Hnn_mid].
  pose proof (stored_nonneg _ Hnn_mid) as Hmid.
  rewrite stored_app in Hst.
  assert (Hpm : nbEvents_after (pre ++ mid) = stored (pre ++ mid))
    by (apply nbEvents_after_stored; [exact Hnn_pm|lia]).
  rewrite stored_app in Hpm, Hst.
  assert (Hp : nbEvents_after pre = stored pre)
    by (apply nbEvents_after_stored; [exact Hnn_pre|lia]).
  assert (Hnz : truthy (nbEvents_after (pre ++ mid)) = true)
    by (apply truthy_true; lia).
  now rewrite Hnz.
Qed.

(** *** A failing wait *)

(** C10.  When, in any pass of the loop, capacity remains after the drain
    phase and [poll] fails, the call returns at once, and what it returns
    is the negated [errno] alone: [nbEvents], the number of events the
    drain phases copied, is dropped, while the copied events stay in the
    caller's memory. *)
Theorem poll_failure_discards_count fuel l (m : machine W event) :
  let l1 := fst (drain mSensors (seq 0 numSensorDrivers) l m) in
  let m1 := snd (drain mSensors (seq 0 numSensorDrivers) l m) in
  let timeout := if truthy (nbEvents l1) then 0 else -1 in
  let p := k_poll os (mPollFds m1) (Z.of_nat numFds) timeout (world m1) in
  truthy (count l1) = true ->
  fst (fst p) < 0 ->
  exists m',
    pollEvents_loop mSensors os (S fuel) l m = (Some (- k_errno os (snd p)), m')
    /\ mem m' = mem m1
    /\ world m' = snd p
    /\ trace m' = trace m1 ++ [SysPoll timeout (fst (fst p)); ALOGE "poll() failed (%s)"].
Proof.
  cbv zeta. intros Hcount Hneg. rewrite pollEvents_loop_S.
  destruct (drain mSensors (seq 0 numSensorDrivers) l m) as [l1 m1]. simpl in *.
  destruct (wait_polls l1 m1 Hcount) as (extra & m' & Hres & Htr & _ & Hmem).
  destruct Hres as [(_ & Hwait & Hworld & ->) | (Hpos & _)]; [|lia].
  rewrite Hwait. exists m'. auto.
Qed.

(** *** Readiness bits *)

Lemma revents_at_cleared i (fds : list pollfd) :
  revents_at i (alter (set_revents 0) i fds) = 0.
Proof.
  unfold revents_at. rewrite list_lookup_alter_eq. now destruct (fds !! i).
Qed.

Lemma revents_at_alter_ne i j f (fds : list pollfd) :
  i <> j -> revents_at j (alter f i fds) = revents_at j fds.
Proof. intros Hne. unfold revents_at. now rewrite list_lookup_alter_ne. Qed.

Lemma drain_one_revents i l (m : machine W event) j :
  revents_at j (mPollFds (snd (drain_one mSensors i l m))) = revents_at j (mPollFds m)
  \/ revents_at j (mPollFds (snd (drain_one mSensors i l m))) = 0.
Proof.
  rewrite drain_one_spec. destruct (truthy _ || _); [|now left]. simpl.
  destruct (_ <? count l); [|now left].
  destruct (decide (i = j)) as [->|Hne].
  - right. apply revents_at_cleared.
  - left. now apply revents_at_alter_ne.
Qed.

Lemma drain_one_revents_ne i l (m : machine W event) j :
  i <> j ->
  revents_at j (mPollFds (snd (drain_one mSensors i l m))) = revents_at j (mPollFds m).
Proof.
  intros Hne. rewrite drain_one_spec. destruct (truthy _ || _); [|reflexivity]. simpl.
  destruct (_ <? count l); [|reflexivity]. now apply revents_at_alter_ne.
Qed.

Lemma drain_revents drivers l (m : machine W event) j :
  revents_at j (mPollFds (snd (drain mSensors drivers l m))) = revents_at j (mPollFds m)
  \/ revents_at j (mPollFds (snd (drain mSensors drivers l m))) = 0.
Proof.
  revert l m. induction drivers as [|i drivers IH]; intros l m; simpl; [now left|].
  destruct (truthy (count l)); [|now left].
  pose proof (drain_one_revents i l m j) as H1.
  destruct (drain_one mSensors i l m) as [l1 m1]. simpl in H1.
  destruct (IH l1 m1) as [H2|H2]; [|now right].
  rewrite H2. exact H1.
Qed.

Lemma drain_revents_frame drivers l (m : machine W event) j :
  j ∉ drivers ->
  revents_at j (mPollFds (snd (drain mSensors drivers l m))) = revents_at j (mPollFds m).
Proof.
  revert l m. induction drivers as [|i drivers IH]; intros l m Hj; simpl; [reflexivity|].
  apply not_elem_of_cons in Hj as [Hne Hj].
  destruct (truthy (count l)); [|reflexivity].
  pose proof (drain_one_revents_ne i l m j (not_eq_sym Hne)) as H1.
  destruct (drain_one mSensors i l m) as [l1 m1]. simpl in H1.
  now rewrite IH.
Qed.

Lemma drain_reads drivers :
  NoDup drivers ->
  forall l (m : machine W event),
  exists d,
    trace (snd (drain mSensors drivers l m)) = trace m ++ d
    /\ forall i dat cnt nb,
         DrvRead i dat cnt nb ∈ d ->
         i ∈ drivers
         /\ (nb < cnt ->
             revents_at i (mPollFds (snd (drain mSensors drivers l m))) = 0).
Proof.
  induction 1 as [|j drivers Hj Hnd IH]; intros l m; simpl.
  - exists []. rewrite app_nil_r. split; [reflexivity|].
    intros i dat cnt nb Hin. now apply elem_of_nil in Hin.
  - destruct (truthy (count l)).
    2:{ exists []. rewrite app_nil_r. split; [reflexivity|].
        intros i dat cnt nb Hin. now apply elem_of_nil in Hin. }
    pose proof (drain_one_spec j l m) as Hone.
    pose proof (drain_revents_frame drivers (fst (drain_one mSensors j l m))
                  (snd (drain_one mSensors j l m)) j Hj) as Hframe.
    destruct (drain_one mSensors j l m) as [l1 m1]. simpl in Hframe.
    destruct (IH l1 m1) as (d2 & Htr2 & Hd2).
    destruct (truthy _ || _).
    + inversion Hone; subst l1 m1; clear Hone. simpl in *.
      eexists. rewrite Htr2, <- app_assoc. split; [reflexivity|].
      intros i dat cnt nb Hin. apply elem_of_app in Hin as [Hin|Hin].
      * apply list_elem_of_singleton in Hin. inversion Hin; subst.
        split; [apply list_elem_of_here|]. intros Hlt.
        rewrite Hframe. apply Z.ltb_lt in Hlt. rewrite Hlt.
        apply revents_at_cleared.
      * destruct (Hd2 i dat cnt nb Hin) as [Hi Hclr].
        split; [now apply list_elem_of_further|exact Hclr].
    + inversion Hone; subst l1 m1; clear Hone.
      exists d2. split; [exact Htr2|].
      intros i dat cnt nb Hin. destruct (Hd2 i dat cnt nb Hin) as [Hi Hclr].
      split; [now apply list_elem_of_further|exact Hclr].
Qed.


Lemma wait_revents l (m : machine W event) j :
  let timeout := if truthy (nbEvents l) then 0 else -1 in
  let reported := snd (fst (k_poll os (mPollFds m) (Z.of_nat numFds) timeout (world m))) in
  let after := revents_at j (mPollFds (snd (wait os l m))) in
  after = revents_at j (mPollFds m)
  \/ after = 0
  \/ (truthy (count l) = true /\ after = reported j).
Proof.
  cbv zeta. unfold wait. destruct (truthy (count l)); [|now left].
  destruct (k_poll os (mPollFds m) (Z.of_nat numFds)
              (if truthy (nbEvents l) then 0 else -1) (world m)) as [[ready rv] w].
  simpl.
  assert (Himap : forall fds : list pollfd,
             revents_at j (imap (fun i p => set_revents (rv i) p) fds) = 0
             \/ revents_at j (imap (fun i p => set_revents (rv i) p) fds) = rv j).
  { intros fds. unfold revents_at. rewrite list_lookup_imap.
    destruct (fds !! j); simpl; auto. }
  destruct (ready <? 0); simpl.
  - destruct (Himap (mPollFds m)) as [H|H]; rewrite H; auto.
  - destruct (truthy (Z.land _ POLLIN)); simpl.
    + destruct (k_read os _ 1 w) as [[result msg] w'].
      assert (Hgoal :
                revents_at j (alter (set_revents 0) wake
                                (imap (fun i p => set_revents (rv i) p) (mPollFds m))) = 0
                \/ revents_at j (alter (set_revents 0) wake
                                   (imap (fun i p => set_revents (rv i) p) (mPollFds m)))
                   = rv j).
      { destruct (decide (wake = j)) as [<-|Hne].
        - left. apply revents_at_cleared.
        - rewrite revents_at_alter_ne by exact Hne. apply Himap. }
      destruct (result <? 0), (negb (msg =? WAKE_MESSAGE));
        unfold set_fds, emit, set_world; simpl;
        destruct Hgoal as [H|H]; rewrite H; auto.
    + destruct (Himap (mPollFds m)) as [H|H]; rewrite H; auto.
Qed.

(** C6.  The body of the drain loop, which runs for a driver only while
    capacity remains, reads the driver exactly when its [revents] has
    [POLLIN] set or it reports pending events.  A read that returned fewer
    events than the capacity it was given leaves the driver's [revents] 0
    at the end of the drain phase, that is, when the wait is made.  The
    drain phase never sets a bit: it leaves each [revents] as it was or 0;
    and after the wait phase a [revents] is what it was, 0, or what [poll]
    reported.  The constructor starts every [revents] at 0. *)
Theorem drain_follows_readiness :
  (forall i l (m : machine W event),
      since m (snd (drain_one mSensors i l m)) =
        if truthy (Z.land (revents_at i (mPollFds m)) POLLIN)
           || SensorBase.hasPendingEvents (mSensors i) (world m)
        then [DrvRead i (data l) (count l)
                (fst (fst (SensorBase.readEvents (mSensors i) (count l) (world m))))]
        else [])
  /\ (forall drivers nbEvents data n (m : machine W event),
        let l := {| count := 0; nbEvents := nbEvents; data := data; n := n |} in
        drain mSensors drivers l m = (l, m))
  /\ (forall l (m : machine W event) i dat cnt nb,
        let m' := snd (drain mSensors (seq 0 numSensorDrivers) l m) in
        DrvRead i dat cnt nb ∈ since m m' ->
        nb < cnt ->
        revents_at i (mPollFds m') = 0)
  /\ (forall l (m : machine W event) j,
        let m' := snd (drain mSensors (seq 0 numSensorDrivers) l m) in
        revents_at j (mPollFds m') = revents_at j (mPollFds m)
        \/ revents_at j (mPollFds m') = 0)
  /\ (forall l (m : machine W event) j,
        let timeout := if truthy (nbEvents l) then 0 else -1 in
        let reported :=
          snd (fst (k_poll os (mPollFds m) (Z.of_nat numFds) timeout (world m))) in
        let after := revents_at j (mPollFds (snd (wait os l m))) in
        after = revents_at j (mPollFds m)
        \/ after = 0
        \/ (truthy (count l) = true /\ after = reported j))
  /\ (forall cells w j,
        revents_at j (mPollFds (sensors_poll_context_t mSensors os cells w)) = 0).
Proof.
  split; [|split; [|split; [|split; [|split]]]].
  - intros i l m. rewrite drain_one_spec.
    destruct (truthy _ || _); simpl.
    + now apply since_extends.
    + unfold since. now rewrite drop_all.
  - intros drivers nbE dat n0 m l. now destruct drivers.
  - intros l m i dat cnt nb m' Hin Hlt.
    destruct (drain_reads (seq 0 numSensorDrivers) (NoDup_seq _ _) l m)
      as (d & Htr & Hd).
    fold m' in Htr, Hd. rewrite (since_extends _ _ _ Htr) in Hin.
    now apply (Hd i dat cnt nb Hin).
  - intros l m j. apply drain_revents.
  - intros l m j. apply wait_revents.
  - intros cells w j. unfold sensors_poll_context_t.
    destruct (k_pipe os w) as [[result [rd wr]] w']. simpl.
    do 5 (destruct j as [|j]; [reflexivity|]). reflexivity.
Qed.


(** *** Calls that are forwarded *)

Lemma handleToDriver_range handle :
  handleToDriver ids handle = - EINVAL
  \/ 0 <= handleToDriver ids handle < Z.of_nat numSensorDrivers.
Proof.
  unfold handleToDriver, akm, proximity, light, gyro, numSensorDrivers.
  destruct (_ || _); [right; lia|].
  destruct (handle =? ID_P ids); [right; lia|].
  destruct (handle =? ID_L ids); [right; lia|].
  destruct (handle =? ID_GY ids); [right; lia|]. now left.
Qed.

(** X10.  Whatever the handle, the index [handleToDriver] yields is
    [-EINVAL] or the index of one of the four drivers, so [mSensors] is
    never indexed out of bounds.  For a handle that routes to a driver,
    [setDelay], [batch] and [flush] make exactly one call, of the method
    of the same name on that driver with the arguments as given, return
    what it returned, and touch neither the poll set, the wake pipe nor
    the caller's memory. *)
Theorem control_calls_forward handle (m : machine W event) :
  let index := handleToDriver ids handle in
  (index = - EINVAL \/ (Z.to_nat index < numSensorDrivers)%nat /\ 0 <= index)
  /\ (if index <? 0 then True
      else
        (forall ns,
            let r := setDelay ids mSensors handle ns m in
            let d := SensorBase.setDelay (mSensors (Z.to_nat index)) handle ns (world m) in
            fst r = fst d /\ world (snd r) = snd d
            /\ since m (snd r) = [DrvSetDelay (Z.to_nat index) handle ns (fst d)]
            /\ mPollFds (snd r) = mPollFds m /\ mWritePipeFd (snd r) = mWritePipeFd m
            /\ mem (snd r) = mem m)
        /\ (forall flags period latency,
              let r := batch ids mSensors handle flags period latency m in
              let d := SensorBase.batch (mSensors (Z.to_nat index)) handle flags period
                         latency (world m) in
              fst r = fst d /\ world (snd r) = snd d
              /\ since m (snd r) =
                   [DrvBatch (Z.to_nat index) handle flags period latency (fst d)]
              /\ mPollFds (snd r) = mPollFds m /\ mWritePipeFd (snd r) = mWritePipeFd m
              /\ mem (snd r) = mem m)
        /\ (let r := flush ids mSensors handle m in
            let d := SensorBase.flush (mSensors (Z.to_nat index)) handle (world m) in
            fst r = fst d /\ world (snd r) = snd d
            /\ since m (snd r) = [DrvFlush (Z.to_nat index) handle (fst d)]
            /\ mPollFds (snd r) = mPollFds m /\ mWritePipeFd (snd r) = mWritePipeFd m
            /\ mem (snd r) = mem m)).
Proof.
  cbv zeta. split.
  - destruct (handleToDriver_range handle) as [H|H]; [now left|right].
    unfold numSensorDrivers in *. lia.
  - destruct (handleToDriver ids handle <? 0) eqn:Hneg; [exact I|].
    split; [|split].
    + intros ns. unfold setDelay. rewrite Hneg.
      destruct (SensorBase.setDelay _ handle ns (world m)) as [err w]. simpl.
      repeat split. now apply since_extends.
    + intros flags period latency. unfold batch. rewrite Hneg.
      destruct (SensorBase.batch _ handle flags period latency (world m)) as [err w].
      simpl. repeat split. now apply since_extends.
    + unfold flush. rewrite Hneg.
      destruct (SensorBase.flush _ handle (world m)) as [err w]. simpl.
      repeat split. now apply since_extends.
Qed.

(** *** The poll set *)

Lemma layout_alter v i (fds : list pollfd) :
  layout (alter (set_revents v) i fds) = layout fds.
Proof.
  unfold layout. apply list_eq. intros j. rewrite !list_lookup_fmap.
  destruct (decide (i = j)) as [<-|Hne].
  - rewrite list_lookup_alter_eq. now destruct (fds !! i).
  - now rewrite list_lookup_alter_ne.
Qed.

Lemma layout_imap (rv : nat -> Z) (fds : list pollfd) :
  layout (imap (fun i p => set_revents (rv i) p) fds) = layout fds.
Proof.
  unfold layout. apply list_eq. intros j.
  rewrite !list_lookup_fmap, list_lookup_imap. now destruct (fds !! j).
Qed.

Lemma drain_one_layout i l (m : machine W event) :
  layout (mPollFds (snd (drain_one mSensors i l m))) = layout (mPollFds m)
  /\ mWritePipeFd (snd (drain_one mSensors i l m)) = mWritePipeFd m.
Proof.
  rewrite drain_one_spec. destruct (truthy _ || _); [|auto]. simpl.
  destruct (_ <? count l); [|auto]. split; [apply layout_alter|reflexivity].
Qed.

Lemma wait_layout l (m : machine W event) :
  layout (mPollFds (snd (wait os l m))) = layout (mPollFds m)
  /\ mWritePipeFd (snd (wait os l m)) = mWritePipeFd m.
Proof.
  unfold wait. destruct (truthy (count l)); [|auto].
  destruct (k_poll os (mPollFds m) (Z.of_nat numFds)
              (if truthy (nbEvents l) then 0 else -1) (world m)) as [[ready rv] w].
  simpl. destruct (ready <? 0); simpl.
  - split; [apply layout_imap|reflexivity].
  - destruct (truthy (Z.land _ POLLIN)); simpl.
    + destruct (k_read os _ 1 w) as [[result msg] w'].
      destruct (result <? 0), (negb (msg =? WAKE_MESSAGE));
        unfold set_fds, emit, set_world; simpl;
        rewrite layout_alter, layout_imap; auto.
    + split; [apply layout_imap|reflexivity].
Qed.

(** X11.  The poll set is fixed at construction: five entries, one per
    driver on the driver's descriptor and the last on the read end of the
    wake pipe, all watching for [POLLIN].  No operation ever changes a
    descriptor, an interest mask or the write end: [activate], [setDelay],
    [batch] and [flush] leave the whole array as it is, and [pollEvents],
    at every point of a call, changes at most [revents]. *)
Theorem poll_set_is_fixed :
  (forall cells w,
      let m := sensors_poll_context_t mSensors os cells w in
      layout (mPollFds m) =
        [(SensorBase.getFd (mSensors 0%nat), POLLIN);
         (SensorBase.getFd (mSensors 1%nat), POLLIN);
         (SensorBase.getFd (mSensors 2%nat), POLLIN);
         (SensorBase.getFd (mSensors 3%nat), POLLIN);
         (fst (snd (fst (k_pipe os w))), POLLIN)]
      /\ mWritePipeFd m = snd (snd (fst (k_pipe os w))))
  /\ (forall handle enabled ns flags period latency (m : machine W event),
        mPollFds (snd (activate ids mSensors os handle enabled m)) = mPollFds m
        /\ mPollFds (snd (setDelay ids mSensors handle ns m)) = mPollFds m
        /\ mPollFds (snd (batch ids mSensors handle flags period latency m)) = mPollFds m
        /\ mPollFds (snd (flush ids mSensors handle m)) = mPollFds m
        /\ mWritePipeFd (snd (activate ids mSensors os handle enabled m)) = mWritePipeFd m)
  /\ (forall fuel data count (m : machine W event),
        let m' := snd (pollEvents mSensors os fuel data count m) in
        layout (mPollFds m') = layout (mPollFds m)
        /\ length (mPollFds m') = length (mPollFds m)
        /\ mWritePipeFd m' = mWritePipeFd m).
Proof.
  split; [|split].
  - intros cells w. cbv zeta. unfold sensors_poll_context_t.
    destruct (k_pipe os w) as [[result [rd wr]] w']. simpl. auto.
  - intros handle enabled ns flags period latency m.
    unfold activate, setDelay, batch, flush.
    destruct (handleToDriver ids handle <? 0); [auto|].
    destruct (SensorBase.setDelay _ handle ns (world m)) as [e1 wa].
    destruct (SensorBase.batch _ handle flags period latency (world m)) as [e2 wb].
    destruct (SensorBase.flush _ handle (world m)) as [e3 wc].
    destruct ((handleToDriver ids handle =? gyro) && (enabled =? 0)); simpl;
      destruct_enable; simpl;
      destruct (truthy enabled && negb (truthy err)); simpl; auto;
      match goal with |- context [k_write ?o ?f ?b ?w] =>
        destruct (k_write o f b w) as [result w2'] end;
      destruct (result <? 0); simpl; auto.
  - intros fuel data count m. cbv zeta. unfold pollEvents.
    assert (H : layout (mPollFds (snd (pollEvents_loop mSensors os fuel
                  {| count := count; nbEvents := 0; data := data; n := 0 |} m)))
                = layout (mPollFds m)
                /\ mWritePipeFd (snd (pollEvents_loop mSensors os fuel
                  {| count := count; nbEvents := 0; data := data; n := 0 |} m))
                   = mWritePipeFd m).
    { apply (pollEvents_loop_inv
               (fun _ m' => layout (mPollFds m') = layout (mPollFds m)
                            /\ mWritePipeFd m' = mWritePipeFd m)
               (fun _ m' => layout (mPollFds m') = layout (mPollFds m)
                            /\ mWritePipeFd m' = mWritePipeFd m)); auto.
      - intros i l m1 [Hl Hw] _. destruct (drain_one_layout i l m1) as [-> ->]. auto.
      - intros l m1 [Hl Hw]. pose proof (wait_layout l m1) as [Hl' Hw'].
        destruct (wait os l m1) as [[r|l'] m2]; simpl in *; split; congruence. }
    destruct H as [Hl Hw]. split; [exact Hl|]. split; [|exact Hw].
    apply (f_equal length) in Hl. unfold layout in Hl.
    now rewrite !length_fmap in Hl.
Qed.


(** *** The order of the reads *)

Lemma drain_priority drivers l (m : machine W event) :
  exists d,
    trace (snd (drain mSensors drivers l m)) = trace m ++ d
    /\ Forall (fun a => is_Some (read_driver a)) d
    /\ omap read_driver d `sublist_of` drivers.
Proof.
  revert l m. induction drivers as [|i drivers IH]; intros l m; simpl.
  - exists []. rewrite app_nil_r. split; [reflexivity|]. split; constructor.
  - destruct (truthy (count l)).
    2:{ exists []. rewrite app_nil_r. split; [reflexivity|].
        split; [constructor|apply sublist_nil_l]. }
    pose proof (drain_one_spec i l m) as Hone.
    destruct (drain_one mSensors i l m) as [l1 m1].
    destruct (IH l1 m1) as (d2 & Htr2 & Hall & Hsub).
    destruct (truthy _ || _); inversion Hone; subst l1 m1; clear Hone; simpl in *.
    + eexists. rewrite Htr2, <- app_assoc. split; [reflexivity|]. split.
      * constructor; [simpl; eauto|exact Hall].
      * simpl. now apply sublist_skip.
    + exists d2. split; [exact Htr2|]. split; [exact Hall|].
      now apply sublist_cons.
Qed.

(** X12.  A drain phase does nothing but read drivers, each at most once
    and in the order light, proximity, akm, gyro; the wake entry is never
    read as a source of events. *)
Theorem drain_in_priority_order l (m : machine W event) :
  let d := since m (snd (drain mSensors (seq 0 numSensorDrivers) l m)) in
  Forall (fun a => is_Some (read_driver a)) d
  /\ omap read_driver d `sublist_of` [0; 1; 2; 3]%nat.
Proof.
  cbv zeta.
  destruct (drain_priority (seq 0 numSensorDrivers) l m) as (d & Htr & Hall & Hsub).
  rewrite (since_extends _ _ _ Htr). auto.
Qed.


(** *** The wake pipe in a wait *)

Lemma revents_at_imap (rv : nat -> Z) (fds : list pollfd) i :
  (i < length fds)%nat ->
  revents_at i (imap (fun j p => set_revents (rv j) p) fds) = rv i.
Proof.
  intros Hi. unfold revents_at. rewrite list_lookup_imap.
  destruct (lookup_lt_is_Some_2 fds i Hi) as [p ->]. reflexivity.
Qed.

Lemma fd_at_imap (rv : nat -> Z) (fds : list pollfd) i :
  fd_at i (imap (fun j p => set_revents (rv j) p) fds) = fd_at i fds.
Proof.
  unfold fd_at. rewrite list_lookup_imap. now destruct (fds !! i).
Qed.

(** X13.  In a wait that does not fail, the wake pipe is read exactly
    when [poll] reported it readable: then once, from its read end, and
    never otherwise; no driver is read; and afterwards the wake entry has
    no [POLLIN] left, so the next drain phase and the next wait start
    from a clean wake entry. *)
Theorem wake_is_consumed l (m : machine W event)
  (Hlen : (wake < length (mPollFds m))%nat)
  (Hcount : truthy (count l) = true) :
  let timeout := if truthy (nbEvents l) then 0 else -1 in
  let p := k_poll os (mPollFds m) (Z.of_nat numFds) timeout (world m) in
  let m' := snd (wait os l m) in
  0 <= fst (fst p) ->
  omap pipe_read (since m m') =
    (if truthy (Z.land (snd (fst p) wake) POLLIN) then [fd_at wake (mPollFds m)]
     else [])
  /\ omap read_driver (since m m') = []
  /\ truthy (Z.land (revents_at wake (mPollFds m')) POLLIN) = false.
Proof.
  cbv zeta. unfold wait. rewrite Hcount.
  destruct (k_poll os (mPollFds m) (Z.of_nat numFds)
              (if truthy (nbEvents l) then 0 else -1) (world m)) as [[ready rv] w].
  simpl. intros Hready.
  destruct (Z.ltb_spec ready 0) as [Hneg|_]; [lia|].
  rewrite revents_at_imap by exact Hlen. rewrite fd_at_imap.
  destruct (truthy (Z.land (rv wake) POLLIN)) eqn:Hbit.
  - destruct (k_read os (fd_at wake (mPollFds m)) 1 w) as [[result msg] w'].
    destruct (result <? 0), (negb (msg =? WAKE_MESSAGE));
      (erewrite since_extends; [|show_trace]);
      unfold set_fds, emit, set_world; simpl; rewrite revents_at_cleared;
      repeat split; reflexivity.
  - (erewrite since_extends; [|show_trace]). simpl.
    rewrite revents_at_imap by exact Hlen. auto.
Qed.

(** *** Leaving the loop *)

(** X14.  A pass of the loop ends the call, with the number of events
    gathered so far, as soon as the drain phase has used up the capacity
    (then without waiting at all) or the wait reports nothing ready;
    with capacity 0 the call returns 0 at once and touches nothing. *)
Theorem loop_ends_when_full_or_idle fuel l (m : machine W event) :
  let l1 := fst (drain mSensors (seq 0 numSensorDrivers) l m) in
  let m1 := snd (drain mSensors (seq 0 numSensorDrivers) l m) in
  let timeout := if truthy (nbEvents l1) then 0 else -1 in
  let p := k_poll os (mPollFds m1) (Z.of_nat numFds) timeout (world m1) in
  (count l1 = 0 ->
   pollEvents_loop mSensors os (S fuel) l m = (Some (nbEvents l1), m1))
  /\ (count l1 <> 0 -> fst (fst p) = 0 ->
      fst (pollEvents_loop mSensors os (S fuel) l m) = Some (nbEvents l1)
      /\ omap read_driver (since m1 (snd (pollEvents_loop mSensors os (S fuel) l m))) = [])
  /\ (forall data (m0 : machine W event),
        pollEvents mSensors os (S fuel) data 0 m0 = (Some 0, m0)).
Proof.
  cbv zeta. rewrite pollEvents_loop_S.
  destruct (drain mSensors (seq 0 numSensorDrivers) l m) as [l1 m1]. simpl.
  split; [|split].
  - intros Hzero. apply truthy_false' in Hzero.
    rewrite (wait_idle _ _ Hzero), Hzero, andb_false_r. reflexivity.
  - intros Hnz Hidle. apply truthy_true in Hnz.
    destruct (wait_polls l1 m1 Hnz) as (extra & m' & Hres & Htr & Hq & _).
    destruct Hres as [(Hneg & _) | (_ & Hwait)]; [lia|].
    rewrite Hwait. simpl. rewrite Hidle. simpl. split; [reflexivity|].
    rewrite (since_extends _ _ _ Htr). simpl.
    clear -Hq. induction Hq as [|a extra [_ Ha] _ IH]; [reflexivity|].
    simpl. destruct a; try discriminate Ha; exact IH.
  - reflexivity.
Qed.


(** *** Where the events go *)

Lemma every_split_nil P : every_split P [].
Proof. intros pre x post H. now destruct pre. Qed.

Lemma every_split_snoc P d a :
  every_split P d -> P d a -> every_split P (d ++ [a]).
Proof.
  intros Hd Ha pre x post Heq.
  apply snoc_split in Heq as [(_ & -> & ->) | (post' & _ & ->)].
  - exact Ha.
  - now apply (Hd pre x post').
Qed.

Lemma every_split_app P d extra :
  every_split P d -> Forall (fun x => forall pre, P pre x) extra ->
  every_split P (d ++ extra).
Proof.
  intros Hd. induction extra as [|a extra IH] using rev_ind; intros Hq.
  - now rewrite app_nil_r.
  - apply Forall_app in Hq as [Hq Ha]. apply Forall_cons_1 in Ha as [Ha _].
    rewrite app_assoc. apply every_split_snoc; [now apply IH|apply Ha].
Qed.

Lemma quiet_placed data0 extra :
  Forall quiet extra -> Forall (fun x => forall pre, placed_at data0 pre x) extra.
Proof.
  intros Hq. eapply Forall_impl; [exact Hq|].
  intros a [_ Ha] pre. destruct a; simpl; auto. discriminate Ha.
Qed.

Lemma quiet_offered count0 extra :
  Forall quiet extra -> Forall (fun x => forall pre, offered count0 pre x) extra.
Proof.
  intros Hq. eapply Forall_impl; [exact Hq|].
  intros a [_ Ha] pre. destruct a; simpl; auto. discriminate Ha.
Qed.

Lemma stored_snoc d a : stored (d ++ [a]) = stored d + read_count a.
Proof. rewrite stored_app. unfold stored. simpl. lia. Qed.

Lemma stored_after_wait d timeout ready extra :
  Forall quiet extra -> stored (d ++ SysPoll timeout ready :: extra) = stored d.
Proof.
  intros Hq. rewrite stored_app, stored_cons, (stored_quiet _ Hq). simpl. lia.
Qed.

Lemma pollEvents_loop_placed (data0 : Z) (m0 : machine W event) :
  forall fuel l m,
    (exists d, trace m = trace m0 ++ d /\ data l = data0 + stored d
               /\ every_split (placed_at data0) d) ->
    exists d, trace (snd (pollEvents_loop mSensors os fuel l m)) = trace m0 ++ d
              /\ every_split (placed_at data0) d.
Proof.
  apply (pollEvents_loop_inv
           (fun l m => exists d, trace m = trace m0 ++ d /\ data l = data0 + stored d
                                 /\ every_split (placed_at data0) d)
           (fun _ m' => exists d, trace m' = trace m0 ++ d
                                  /\ every_split (placed_at data0) d)).
  - intros i l m (d & Htr & Hdata & Hsp) _.
    rewrite drain_one_spec. destruct (truthy _ || _); [|simpl; eauto].
    simpl. eexists. rewrite Htr, <- app_assoc. split; [reflexivity|]. split.
    + rewrite stored_snoc. simpl. lia.
    + apply every_split_snoc; [exact Hsp|exact Hdata].
  - intros l m (d & Htr & Hdata & Hsp).
    destruct (truthy (count l)) eqn:Htruthy.
    + destruct (wait_polls l m Htruthy) as (extra & m' & Hres & Htr' & Hq & _).
      assert (Hd' : exists d', trace m' = trace m0 ++ d' /\ data l = data0 + stored d'
                               /\ every_split (placed_at data0) d').
      { eexists. rewrite Htr', Htr, <- app_assoc. split; [reflexivity|]. split.
        - now rewrite stored_after_wait.
        - change (d ++ SysPoll ?t ?r :: extra) with (d ++ [SysPoll t r] ++ extra).
          rewrite app_assoc. apply every_split_app; [|now apply quiet_placed].
          apply every_split_snoc; [exact Hsp|exact I]. }
      destruct Hres as [(_ & -> & _) | (_ & ->)].
      * destruct Hd' as (d' & ? & _ & ?). eauto.
      * exact Hd'.
    + rewrite (wait_idle _ _ Htruthy). eauto.
  - intros l m (d & Htr & _ & Hsp). eauto.
  - intros l m (d & Htr & _ & Hsp). eauto.
Qed.

Lemma store_keeps evs addr (cells : gmap Z event) k :
  is_Some (cells !! k) -> is_Some (store addr evs cells !! k).
Proof.
  revert addr cells. induction evs as [|e evs IH]; intros addr cells Hk; simpl; [exact Hk|].
  apply IH. destruct (decide (addr = k)) as [->|Hne].
  - rewrite lookup_insert_eq. eauto.
  - now rewrite lookup_insert_ne.
Qed.

Lemma store_filled evs addr (cells : gmap Z event) k :
  addr <= k < addr + Z.of_nat (length evs) -> is_Some (store addr evs cells !! k).
Proof.
  revert addr cells. induction evs as [|e evs IH]; intros addr cells Hk; simpl in *; [lia|].
  destruct (decide (addr = k)) as [->|Hne].
  - apply store_keeps. rewrite lookup_insert_eq. eauto.
  - apply IH. lia.
Qed.

Lemma pollEvents_loop_filled (count0 data0 : Z) (m0 : machine W event) :
  read_contract mSensors ->
  0 <= count0 <= INT_MAX ->
  forall fuel l m,
    (0 <= count l /\ 0 <= nbEvents l /\ nbEvents l + count l = count0
     /\ data l = data0 + nbEvents l
     /\ (forall k, data0 <= k < data0 + nbEvents l -> is_Some (mem m !! k))
     /\ exists d, trace m = trace m0 ++ d /\ stored d = nbEvents l
                  /\ every_split (offered count0) d) ->
    let res := pollEvents_loop mSensors os fuel l m in
    exists d,
      trace (snd res) = trace m0 ++ d
      /\ every_split (offered count0) d
      /\ (forall k, data0 <= k < data0 + stored d -> is_Some (mem (snd res) !! k))
      /\ (forall r, fst res = Some r ->
            r = stored d
            \/ (r = - k_errno os (world (snd res))
                /\ exists pre timeout ready,
                     d = pre ++ [SysPoll timeout ready; ALOGE "poll() failed (%s)"]
                     /\ ready < 0)).
Proof.
  intros Hreads Hcount0.
  apply (pollEvents_loop_inv
           (fun l m =>
              0 <= count l /\ 0 <= nbEvents l /\ nbEvents l + count l = count0
              /\ data l = data0 + nbEvents l
              /\ (forall k, data0 <= k < data0 + nbEvents l -> is_Some (mem m !! k))
              /\ exists d, trace m = trace m0 ++ d /\ stored d = nbEvents l
                           /\ every_split (offered count0) d)
           (fun o m' =>
              exists d,
                trace m' = trace m0 ++ d
                /\ every_split (offered count0) d
                /\ (forall k, data0 <= k < data0 + stored d -> is_Some (mem m' !! k))
                /\ (forall r, o = Some r ->
                      r = stored d
                      \/ (r = - k_errno os (world m')
                          /\ exists pre timeout ready,
                               d = pre ++ [SysPoll timeout ready;
                                           ALOGE "poll() failed (%s)"]
                               /\ ready < 0)))).
  - (* a drain step *)
    intros i l m (Hc & Hn & Hsum & Hdata & Hfill & d & Htr & Hst & Hsp) Htruthy.
    rewrite drain_one_spec. destruct (truthy _ || _); [|simpl; eauto 10].
    apply truthy_true in Htruthy.
    destruct (Hreads i (count l) (world m)) as [Hnb Hlen]; [lia|].
    destruct (SensorBase.readEvents (mSensors i) (count l) (world m)) as [[nb evs] w].
    simpl in *. unfold INT_MAX in *.
    rewrite !int32_small by (unfold INT_MAX; lia).
    repeat split; try lia.
    + intros k Hk. destruct (Z.lt_ge_cases k (data l)) as [Hlow|Hhigh].
      * apply store_keeps, Hfill. lia.
      * apply store_filled. lia.
    + exists (d ++ [DrvRead i (data l) (count l) nb]).
      rewrite Htr, <- app_assoc, stored_snoc, Hst.
      split; [reflexivity|]. split; [simpl; lia|].
      apply every_split_snoc; [exact Hsp|]. simpl. lia.
  - (* a wait *)
    intros l m (Hc & Hn & Hsum & Hdata & Hfill & d & Htr & Hst & Hsp).
    destruct (truthy (count l)) eqn:Htruthy.
    + destruct (wait_polls l m Htruthy) as (extra & m' & Hres & Htr' & Hq & Hmem).
      assert (Hsp' : every_split (offered count0)
                       (d ++ SysPoll (if truthy (nbEvents l) then 0 else -1)
                               (fst (fst (k_poll os (mPollFds m) (Z.of_nat numFds)
                                            (if truthy (nbEvents l) then 0 else -1)
                                            (world m)))) :: extra)).
      { change (d ++ SysPoll ?t ?r :: extra) with (d ++ [SysPoll t r] ++ extra).
        rewrite app_assoc. apply every_split_app; [|now apply quiet_offered].
        apply every_split_snoc; [exact Hsp|exact I]. }
      destruct Hres as [(Hneg & -> & Hw & ->) | (Hpos & ->)].
      * eexists. rewrite Htr', Htr, <- app_assoc. split; [reflexivity|].
        split; [exact Hsp'|]. split.
        -- intros k Hk. rewrite Hmem. apply Hfill.
           rewrite stored_after_wait in Hk by (repeat constructor). lia.
        -- intros r [= <-]. right. rewrite Hw. split; [reflexivity|].
           eexists d, _, _. split; [reflexivity|exact Hneg].
      * simpl. rewrite Hmem. repeat split; try lia; try exact Hfill.
        eexists. rewrite Htr', Htr, <- app_assoc. split; [reflexivity|].
        split; [now rewrite stored_after_wait|exact Hsp'].
    + rewrite (wait_idle _ _ Htruthy). eauto 10.
  - (* leaving the loop *)
    intros l m (Hc & Hn & Hsum & Hdata & Hfill & d & Htr & Hst & Hsp).
    exists d. split; [exact Htr|]. split; [exact Hsp|]. split.
    + intros k Hk. apply Hfill. lia.
    + intros r [= <-]. left. lia.
  - (* not returned yet *)
    intros l m (Hc & Hn & Hsum & Hdata & Hfill & d & Htr & Hst & Hsp).
    exists d. split; [exact Htr|]. split; [exact Hsp|]. split.
    + intros k Hk. apply Hfill. lia.
    + intros r [=].
Qed.


(** X15.  In a [pollEvents] call every driver read is handed the address
    just behind the events the earlier reads of the call returned, so the
    batches lie back to back from [data] on.  With drivers that return
    numbers of events, the capacity a read is offered is what the earlier
    reads left of [count], it is positive, and the read returns no more
    than it. *)
Theorem reads_back_to_back fuel data count (m : machine W event) :
  let m' := snd (pollEvents mSensors os fuel data count m) in
  (forall pre i dat cnt nb post,
      since m m' = pre ++ DrvRead i dat cnt nb :: post ->
      dat = data + stored pre)
  /\ (read_contract mSensors -> 0 <= count <= INT_MAX ->
      forall pre i dat cnt nb post,
        since m m' = pre ++ DrvRead i dat cnt nb :: post ->
        cnt = count - stored pre /\ 0 < cnt /\ 0 <= nb <= cnt).
Proof.
  cbv zeta. unfold pollEvents.
  set (l0 := {| count := count; nbEvents := 0; data := data; n := 0 |}).
  split.
  - destruct (pollEvents_loop_placed data m fuel l0 m) as (d & Htr & Hsp).
    { exists []. rewrite app_nil_r. split; [reflexivity|].
      split; [simpl; unfold stored; simpl; lia|apply every_split_nil]. }
    rewrite (since_extends _ _ _ Htr).
    intros pre i dat cnt nb post Hsplit. exact (Hsp _ _ _ Hsplit).
  - intros Hreads Hcount.
    destruct (pollEvents_loop_filled count data m Hreads Hcount fuel l0 m)
      as (d & Htr & Hsp & _).
    { simpl. split; [lia|]. split; [lia|]. split; [lia|]. split; [lia|].
      split; [intros k Hk; lia|]. exists []. rewrite app_nil_r.
      split; [reflexivity|]. split; [reflexivity|apply every_split_nil]. }
    rewrite (since_extends _ _ _ Htr).
    intros pre i dat cnt nb post Hsplit. exact (Hsp _ _ _ Hsplit).
Qed.

(** X16.  With drivers that return numbers of events and store as many, a
    [pollEvents] call fills the cells it counts: at every point of the
    call the first [stored] cells from [data] on hold an event.  What the
    call returns is that number, unless its last wait failed: only then
    is the result the negated [errno], with the failed [poll] and its log
    line as the last actions of the call. *)
Theorem returned_count_is_filled
  (Hreads : read_contract mSensors)
  fuel data count (m : machine W event)
  (Hcount : 0 <= count <= INT_MAX) :
  let res := pollEvents mSensors os fuel data count m in
  let d := since m (snd res) in
  (forall k, 0 <= k < stored d -> is_Some (mem (snd res) !! (data + k)))
  /\ (forall r, fst res = Some r ->
        r = stored d
        \/ (r = - k_errno os (world (snd res))
            /\ exists pre timeout ready,
                 d = pre ++ [SysPoll timeout ready; ALOGE "poll() failed (%s)"]
                 /\ ready < 0)).
Proof.
  cbv zeta. unfold pollEvents.
  set (l0 := {| count := count; nbEvents := 0; data := data; n := 0 |}).
  destruct (pollEvents_loop_filled count data m Hreads Hcount fuel l0 m)
    as (d & Htr & _ & Hfill & Hret).
  { simpl. split; [lia|]. split; [lia|]. split; [lia|]. split; [lia|].
    split; [intros k Hk; lia|]. exists []. rewrite app_nil_r.
    split; [reflexivity|]. split; [reflexivity|apply every_split_nil]. }
  rewrite (since_extends _ _ _ Htr). split.
  - intros k Hk. apply Hfill. lia.
  - exact Hret.
Qed.


End Facts.


(** *** The scripted world meets the contracts *)

Lemma sim_read_contract : read_contract Sim.driver.
Proof.
  intros i n w Hn. simpl. rewrite length_take. lia.
Qed.

Lemma sim_poll_contract : poll_contract Sim.kernel.
Proof.
  intros fds nfds timeout w. simpl.
  destruct (Sim.poll_fails w); simpl; [lia|].
  destruct (bool_decide _ && _); simpl; lia.
Qed.

Lemma sim_ids_distinct : NoDup (declared Sim.ids).
Proof. apply (bool_decide_unpack _). vm_compute. exact I. Qed.

(** *** The theorems at work *)

Lemma pollEvents_within_capacity_witness :
  let m := Sim.fresh (Sim.world_with [1; 2; 3] [7; 8] None 0) in
  let res := pollEvents Sim.driver Sim.kernel 5 100 4 m in
  fst res = Some 4
  /\ (forall r, fst res = Some r -> r <= 4)
  /\ (forall k, k < 100 \/ 100 + 4 <= k -> mem (snd res) !! k = mem m !! k)
  /\ trace (snd res) = trace m ++ since m (snd res)
  /\ 0 <= stored (since m (snd res)) <= 4
  /\ reads_nonneg (since m (snd res)).
Proof.
  intros m res. split; [vm_compute; reflexivity|].
  apply (pollEvents_within_capacity Sim.driver Sim.kernel
           sim_read_contract sim_poll_contract 5 100 4 m).
  unfold INT_MAX. lia.
Defined.

Lemma handleToDriver_routes_witness :
  handleToDriver Sim.ids 4 = proximity
  /\ activate Sim.ids Sim.driver Sim.kernel 9 1
       (Sim.fresh (Sim.world_with [] [] None 0))
     = (- EINVAL, Sim.fresh (Sim.world_with [] [] None 0)).
Proof.
  destruct (handleToDriver_routes Sim.ids Sim.driver Sim.kernel sim_ids_distinct)
    as (_ & _ & _ & _ & HP & _ & _ & Hunknown).
  split; [exact HP|].
  assert (Hnine : 9 ∉ declared Sim.ids)
    by (apply (bool_decide_unpack _); vm_compute; exact I).
  destruct (Hunknown 9 Hnine) as [_ Hcalls].
  destruct (Hcalls (Sim.fresh (Sim.world_with [] [] None 0)) 1 0 0 0 0) as [Hact _].
  exact Hact.
Defined.

Lemma gyro_disable_sleeps_first_witness :
  let m := Sim.fresh (Sim.world_with [] [] None 0) in
  let r := activate Sim.ids Sim.driver Sim.kernel 5 0 m in
  since m (snd r) = [Usleep 200000; DrvEnable 3 5 0 0]
  /\ Sim.clock (world (snd r)) = 200000.
Proof.
  intros m r.
  destruct (gyro_disable_sleeps_first Sim.ids Sim.driver Sim.kernel sim_ids_distinct)
    as [_ Hgyro].
  destruct (Hgyro m) as (Htrace & Hworld & _).
  split; [exact Htrace|]. unfold r. change 5 with (ID_GY Sim.ids).
  rewrite Hworld. reflexivity.
Defined.

Lemma waits_block_only_without_events_witness :
  let m := Sim.fresh (Sim.world_with [1; 2; 3] [7; 8] None 0) in
  let res := pollEvents Sim.driver Sim.kernel 5 100 10 m in
  fst res = Some 5
  /\ since m (snd res) =
       [SysPoll (-1) 2; DrvRead 0 100 10 3; DrvRead 1 103 7 2; SysPoll 0 0]
  /\ forall pre mid timeout ready post,
       since m (snd res) = pre ++ mid ++ SysPoll timeout ready :: post ->
       0 < nbEvents_after pre ->
       timeout = 0.
Proof.
  intros m res.
  split; [vm_compute; reflexivity|]. split; [vm_compute; reflexivity|].
  destruct (waits_block_only_without_events Sim.driver Sim.kernel 5 100 10 m)
    as (_ & _ & Hlater).
  apply Hlater; [exact sim_read_contract | unfold INT_MAX; lia].
Defined.

Lemma poll_failure_discards_count_witness :
  let m := Sim.seen_ready 2 (Sim.world_with [1; 2; 3] [7; 8] (Some Sim.ENOMEM) 0) in
  exists m',
    pollEvents Sim.driver Sim.kernel 1 100 10 m = (Some (- 12), m')
    /\ mem m' !! 104 = Some 8.
Proof.
  intros m.
  destruct (poll_failure_discards_count Sim.driver Sim.kernel 0 (Sim.entry 100 10) m)
    as (m' & Hrun & Hmem & _); [vm_compute; reflexivity | vm_compute; reflexivity |].
  exists m'. split; [exact Hrun|].
  rewrite Hmem. vm_compute. reflexivity.
Defined.

Lemma drain_follows_readiness_witness :
  let m := Sim.seen_ready 2 (Sim.world_with [1; 2; 3] [7; 8] None 0) in
  let m' := snd (drain Sim.driver (seq 0 numSensorDrivers) (Sim.entry 100 10) m) in
  DrvRead 0 100 10 3 ∈ since m m'
  /\ 3 < 10
  /\ revents_at 0 (mPollFds m') = 0.
Proof.
  intros m m'.
  assert (Hin : DrvRead 0 100 10 3 ∈ since m m').
  { assert (since m m' = [DrvRead 0 100 10 3; DrvRead 1 103 7 2]) as ->
      by (vm_compute; reflexivity).
    apply list_elem_of_here. }
  assert (Hlt : 3 < 10) by lia.
  split; [exact Hin|]. split; [exact Hlt|].
  destruct (drain_follows_readiness Sim.driver Sim.kernel) as (_ & _ & Hclear & _).
  exact (Hclear (Sim.entry 100 10) m 0%nat 100 10 3 Hin Hlt).
Defined.



Lemma reads_back_to_back_witness :
  let m := Sim.fresh (Sim.world_with [1; 2; 3] [7; 8] None 0) in
  let m' := snd (pollEvents Sim.driver Sim.kernel 5 100 10 m) in
  since m m' = [SysPoll (-1) 2; DrvRead 0 100 10 3] ++ DrvRead 1 103 7 2 :: [SysPoll 0 0]
  /\ 103 = 100 + stored [SysPoll (-1) 2; DrvRead 0 100 10 3]
  /\ 7 = 10 - stored [SysPoll (-1) 2; DrvRead 0 100 10 3] /\ 0 < 7 /\ 0 <= 2 <= 7.
Proof.
  intros m m'.
  assert (Hsplit : since m m' =
                   [SysPoll (-1) 2; DrvRead 0 100 10 3] ++ DrvRead 1 103 7 2 :: [SysPoll 0 0])
    by (vm_compute; reflexivity).
  destruct (reads_back_to_back Sim.driver Sim.kernel 5 100 10 m) as [Hplace Hoffer].
  split; [exact Hsplit|]. split; [exact (Hplace _ _ _ _ _ _ Hsplit)|].
  apply (Hoffer sim_read_contract ltac:(unfold INT_MAX; lia) _ _ _ _ _ _ Hsplit).
Defined.

Lemma returned_count_is_filled_witness :
  let m := Sim.fresh (Sim.world_with [1; 2; 3] [7; 8] None 0) in
  let res := pollEvents Sim.driver Sim.kernel 5 100 10 m in
  fst res = Some 5 /\ stored (since m (snd res)) = 5
  /\ forall k, 0 <= k < stored (since m (snd res)) -> is_Some (mem (snd res) !! (100 + k)).
Proof.
  intros m res.
  split; [vm_compute; reflexivity|]. split; [vm_compute; reflexivity|].
  apply (returned_count_is_filled Sim.driver Sim.kernel sim_read_contract 5 100 10 m).
  unfold INT_MAX. lia.
Defined.

Lemma wake_is_consumed_witness :
  let m := snd (activate Sim.ids Sim.driver Sim.kernel 3 1
                  (Sim.fresh (Sim.world_with [] [] None 0))) in
  let m' := snd (wait Sim.kernel (Sim.entry 100 10) m) in
  Sim.pipe (world m) = [WAKE_MESSAGE]
  /\ omap pipe_read (since m m') = [20]
  /\ Sim.pipe (world m') = []
  /\ truthy (Z.land (revents_at wake (mPollFds m')) POLLIN) = false.
Proof.
  intros m m'.
  split; [vm_compute; reflexivity|].
  destruct (wake_is_consumed Sim.kernel (Sim.entry 100 10) m) as (Hread & _ & Hclear);
    [vm_compute; lia | vm_compute; reflexivity | vm_compute; discriminate |].
  split; [exact Hread|]. split; [vm_compute; reflexivity|exact Hclear].
Defined.

Lemma loop_ends_when_full_or_idle_witness :
  let full := Sim.seen_ready 1 (Sim.world_with [1; 2; 3] [] None 0) in
  let idle := Sim.seen_ready 1 (Sim.world_with [1] [] None 0) in
  pollEvents Sim.driver Sim.kernel 1 100 2 full
  = (Some 2, snd (drain Sim.driver (seq 0 numSensorDrivers) (Sim.entry 100 2) full))
  /\ fst (pollEvents Sim.driver Sim.kernel 1 100 2 idle) = Some 1.
Proof.
  intros full idle.
  destruct (loop_ends_when_full_or_idle Sim.driver Sim.kernel 0 (Sim.entry 100 2) full)
    as (Hfull & _ & _).
  destruct (loop_ends_when_full_or_idle Sim.driver Sim.kernel 0 (Sim.entry 100 2) idle)
    as (_ & Hidle & _).
  split.
  - exact (Hfull ltac:(vm_compute; reflexivity)).
  - exact (proj1 (Hidle ltac:(vm_compute; discriminate) ltac:(vm_compute; reflexivity))).
Defined.

End SensorsFacts.
